(** * nature_global_path_node: waypoint sequencing and vehicle lifecycle

    A shallow embedding of [src/planning/global/nature_global_path_node.cpp]:
    the four subscriber callbacks, the start-up part of [main] and the body
    of its 20 Hz loop, followed by the properties of the waypoint tracker,
    of the path stitching and of the published lifecycle state.

    Conventions of the embedding.
    - [int] values are integers of [Z] with the 32-bit wrap-around written
      out ([wrap32]); [size_t] values are taken modulo [2^64] ([to_size_t]).
    - [float] and [double] values are [spec_float]s in IEEE binary32 and
      binary64 format, with the conversions the C++ code performs implicitly
      or by [static_cast] made explicit ([to_float], [to_double]).
    - [operator[]] outside the bounds of a vector has no defined result; a
      computation that would do it stops with [Undefined].
    - Headers, time stamps, orientations and the [z] coordinate of the
      messages are written but never read by the node; they are left out.
    - [PlanPath] (declared in [nature/planning/global/astar.h]) is a
      parameter of the development. *)

From Stdlib Require Import ZArith List Bool Lia.
From Stdlib Require Import Floats.SpecFloat.
Import ListNotations.

Open Scope Z_scope.

(** ** Machine integers *)

Module MachineInt.

Definition INT_MAX : Z := 2 ^ 31 - 1.

(** Value of an [int] after an arithmetic result is stored back. *)
Definition wrap32 (z : Z) : Z := (z + 2 ^ 31) mod 2 ^ 32 - 2 ^ 31.

(** Conversion of an integer to [size_t] (usual arithmetic conversions in
    a comparison of an [int] with a [size_t], and unsigned arithmetic). *)
Definition to_size_t (z : Z) : Z := z mod 2 ^ 64.

(** [v.size()] *)
Definition size {A : Type} (v : list A) : Z := to_size_t (Z.of_nat (length v)).

End MachineInt.
Import MachineInt.

(** ** Floating point *)

Module Fp.

(** binary32 *)
Definition float := spec_float.
(** binary64 *)
Definition double := spec_float.

Definition round_to (prec emax : Z) (x : spec_float) : spec_float :=
  match x with
  | S754_finite s m e => binary_round prec emax s m e
  | _ => x
  end.

(** [static_cast<float>(d)], and every implicit [double] to [float]
    conversion. *)
Definition to_float (x : double) : float := round_to 24 128 x.

(** Implicit [float] to [double] promotion (exact). *)
Definition to_double (x : float) : double := round_to 53 1024 x.

Definition fmul : float -> float -> float := SFmul 24 128.
Definition fadd : float -> float -> float := SFadd 24 128.
Definition dsub : double -> double -> double := SFsub 53 1024.
Definition dsqrt : double -> double := SFsqrt 53 1024.
Definition dlt : double -> double -> bool := SFltb.

Definition float_of_Z (z : Z) : float := binary_normalize 24 128 z 0 false.
Definition double_of_Z (z : Z) : double := binary_normalize 53 1024 z 0 false.

(** [0.0f] *)
Definition fzero : float := S754_zero false.

End Fp.
Import Fp.

(** ** Messages *)

(** [geometry_msgs/PoseStamped], reduced to [pose.position.x] and
    [pose.position.y] (both [float64]). *)
Record PoseStamped := mkPose { position_x : double; position_y : double }.

(** [nav_msgs/Path], reduced to its [poses]. *)
Definition Path := list PoseStamped.

(** [nav_msgs/Odometry], reduced to [pose.pose.position.x] and [.y]. *)
Record Odometry := mkOdom { odom_x : double; odom_y : double }.

(** [nav_msgs/OccupancyGrid]: the node only hands it to the planner. *)
Definition OccupancyGrid := list Z.

(** What the node writes to [std::cerr] and [std::cout]. *)
Inductive Console :=
| WarnCoordinateCount (nx ny : Z)
| WarnNoWaypoints
| NewWaypoints (gx gy : float)
| DistanceToGoal (wp : Z) (d : double).

(** What the node sends, in the order it sends it. *)
Inductive Msg :=
| PubState (data : Z)                (* nature/state *)
| PubPath (poses : Path)             (* nature/global_path *)
| PubWaypoints (poses : Path)        (* nature/waypoints *)
| PubCurrentWaypoint (data : Z)      (* nature/current_waypoint *)
| PubDist (data : double)            (* nature/distance_to_current_waypoint *)
| Print (line : Console).

(** ** Undefined behaviour *)

Inductive Fault :=
| OutOfRange (index size : Z)
| OutOfFuel.

Inductive result (A : Type) :=
| Ok (a : A)
| Undefined (f : Fault).
Arguments Ok {A} a.
Arguments Undefined {A} f.

Definition bind {A B : Type} (r : result A) (k : A -> result B) : result B :=
  match r with
  | Ok a => k a
  | Undefined f => Undefined f
  end.

Notation "x <- r ;; k" := (bind r (fun x => k))
  (at level 61, r at next level, right associativity).
Notation "' p <- r ;; k" := (bind r (fun x => let p := x in k))
  (at level 61, p pattern, r at next level, right associativity).

(** [v[i]] with [i] already converted to [size_t]. *)
Definition at_index {A : Type} (v : list A) (i : Z) : result A :=
  match nth_error v (Z.to_nat (to_size_t i)) with
  | Some a => Ok a
  | None => Undefined (OutOfRange (to_size_t i) (size v))
  end.

(** ** Globals of the translation unit *)

Record Globals := mkGlobals {
  odom : Odometry;
  odom_rcvd : bool;
  current_grid : OccupancyGrid;
  segmentation_grid : OccupancyGrid;
  current_waypoints : Path;
  waypoints_rcvd : bool
}.

Definition OdometryCallback (rcv_odom : Odometry) (g : Globals) : Globals :=
  {| odom := rcv_odom;
     odom_rcvd := true;
     current_grid := current_grid g;
     segmentation_grid := segmentation_grid g;
     current_waypoints := current_waypoints g;
     waypoints_rcvd := waypoints_rcvd g |}.

Definition MapCallback (rcv_grid : OccupancyGrid) (g : Globals) : Globals :=
  {| odom := odom g;
     odom_rcvd := odom_rcvd g;
     current_grid := rcv_grid;
     segmentation_grid := segmentation_grid g;
     current_waypoints := current_waypoints g;
     waypoints_rcvd := waypoints_rcvd g |}.

Definition SegmentationMapCallback (rcv_grid : OccupancyGrid) (g : Globals)
  : Globals :=
  {| odom := odom g;
     odom_rcvd := odom_rcvd g;
     current_grid := current_grid g;
     segmentation_grid := rcv_grid;
     current_waypoints := current_waypoints g;
     waypoints_rcvd := waypoints_rcvd g |}.

(** "Brute force - overwrite the current global waypoints". *)
Definition WaypointCallback (rcv_waypoints : Path) (g : Globals) : Globals :=
  {| odom := odom g;
     odom_rcvd := odom_rcvd g;
     current_grid := current_grid g;
     segmentation_grid := segmentation_grid g;
     current_waypoints := rcv_waypoints;
     waypoints_rcvd := true |}.

(** Callbacks run only inside [spin_some], in arrival order. *)
Inductive Event :=
| EvOdometry (rcv_odom : Odometry)
| EvMap (rcv_grid : OccupancyGrid)
| EvSegmentationMap (rcv_grid : OccupancyGrid)
| EvWaypoints (rcv_waypoints : Path).

Definition deliver (g : Globals) (e : Event) : Globals :=
  match e with
  | EvOdometry o => OdometryCallback o g
  | EvMap m => MapCallback m g
  | EvSegmentationMap m => SegmentationMapCallback m g
  | EvWaypoints w => WaypointCallback w g
  end.

Definition spin_some (evs : list Event) (g : Globals) : Globals :=
  fold_left deliver evs g.

Definition is_waypoints (e : Event) : bool :=
  match e with
  | EvWaypoints _ => true
  | _ => false
  end.

(** No waypoint list is delivered by these events. *)
Definition no_waypoints (evs : list Event) : bool :=
  forallb (fun e => negb (is_waypoints e)) evs.

(** ** Local variables of [main] *)

(** Parameters, fixed once the loop starts. *)
Record Params := mkParams {
  goal_dist : float;
  shutdown_behavior : Z
}.

Record Locals := mkLocals {
  state_data : Z;                 (* state.data *)
  goal : float * float;           (* goal[0], goal[1] *)
  shutdown_condition : bool;
  nl : Z;
  current_waypoint : Z;
  shutdown_count : Z;
  waypoints_change_once : bool
}.

(** The values read from the parameter server ([get_parameter] has already
    substituted its defaults). *)
Record Config := mkConfig {
  cfg_goal_dist : float;          (* ~goal_dist *)
  cfg_shutdown_behavior : Z;      (* ~shutdown_behavior *)
  waypoints_x_list : list double; (* /waypoints_x *)
  waypoints_y_list : list double  (* /waypoints_y *)
}.

(** A pose as the node builds it: [static_cast<float>] of both coordinates,
    stored in the [float64] fields of the message. *)
Definition make_pose (x y : double) : PoseStamped :=
  mkPose (to_double (to_float x)) (to_double (to_float y)).

(** Lines 179-193: append the waypoints after [cp] to the planned path. *)
Fixpoint stitch_loop (fuel : nat) (wps : Path) (cp : Z) (ros_path : Path)
  : result Path :=
  if to_size_t cp <? to_size_t (size wps - 1) then
    match fuel with
    | O => Undefined OutOfFuel
    | S fuel' =>
        p <- at_index wps (wrap32 (cp + 1)) ;;
        stitch_loop fuel' wps (wrap32 (cp + 1))
          (ros_path ++ [make_pose (position_x p) (position_y p)])
    end
  else Ok ros_path.

Definition stitch (wps : Path) (current_waypoint : Z) (ros_path : Path)
  : result Path :=
  if 1 <? size ros_path
  then stitch_loop (S (length wps)) wps current_waypoint ros_path
  else Ok ros_path.

(** Lines 161-175: the planner's rows as poses. *)
Definition to_ros_path (path : list (float * float)) : Path :=
  map (fun r => mkPose (to_double (fst r)) (to_double (snd r))) path.

(** Lines 161-193 together. *)
Definition compose (wps : Path) (current_waypoint : Z)
    (path : list (float * float)) : result Path :=
  stitch wps current_waypoint (to_ros_path path).

(** The pose appended for a waypoint: its position through
    [static_cast<float>]. *)
Definition stitched (wp : PoseStamped) : PoseStamped :=
  make_pose (position_x wp) (position_y wp).

(** A vector small enough for an [int] to index it. *)
Definition fits_int {A : Type} (v : list A) : Prop :=
  Z.of_nat (length v) <= INT_MAX.

(** Lines 207-209. [sqrt] is the [double] function of the C library applied
    to the promoted [float] sum. *)
Definition distance (goal : float * float) (o : Odometry) : double :=
  let dx := to_float (dsub (to_double (fst goal)) (odom_x o)) in
  let dy := to_float (dsub (to_double (snd goal)) (odom_y o)) in
  dsqrt (to_double (fadd (fmul dx dx) (fmul dy dy))).

(** [d < goal_dist] *)
Definition within (p : Params) (d : double) : bool :=
  dlt d (to_double (goal_dist p)).

Section Node.

(** [astar_planner.PlanPath(&current_grid, &segmentation_grid, goal, pos)];
    each row of the result is read at its entries 0 and 1. *)
Variable PlanPath :
  OccupancyGrid -> OccupancyGrid -> float * float -> float * float ->
  list (float * float).

(** *** Start-up, lines 72-136 *)

Definition clamp_shutdown_behavior (b : Z) : Z :=
  if (3 <? b) || (b <? 1) then 1 else b.

(** The globals as their definitions at file scope initialise them. *)
Definition initial_globals : Globals :=
  {| odom := mkOdom fzero fzero;
     odom_rcvd := false;
     current_grid := [];
     segmentation_grid := [];
     current_waypoints := [];
     waypoints_rcvd := false |}.

Definition main_init (c : Config) : Params * Globals * Locals * list Msg :=
  let xs := waypoints_x_list c in
  let ys := waypoints_y_list c in
  let p := {| goal_dist := cfg_goal_dist c;
              shutdown_behavior :=
                clamp_shutdown_behavior (cfg_shutdown_behavior c) |} in
  let warn1 :=
    if negb (size xs =? size ys)
    then [Print (WarnCoordinateCount (size xs) (size ys))] else [] in
  let warn2 :=
    if (size xs =? 0) || (size ys =? 0)
    then [Print WarnNoWaypoints] else [] in
  let num_waypoints := wrap32 (Z.min (size xs) (size ys)) in
  let loaded := 0 <? num_waypoints in
  let g :=
    {| odom := odom initial_globals;
       odom_rcvd := odom_rcvd initial_globals;
       current_grid := current_grid initial_globals;
       segmentation_grid := segmentation_grid initial_globals;
       current_waypoints :=
         if loaded
         then map (fun xy => make_pose (fst xy) (snd xy))
                (firstn (Z.to_nat num_waypoints) (combine xs ys))
         else current_waypoints initial_globals;
       waypoints_rcvd := waypoints_rcvd initial_globals |} in
  let l :=
    {| state_data := if loaded then 0 else -1;
       goal := if loaded
               then (to_float (nth 0 xs fzero), to_float (nth 0 ys fzero))
               else (fzero, fzero);
       shutdown_condition := false;
       nl := 0;
       current_waypoint := 0;
       shutdown_count := 0;
       waypoints_change_once := true |} in
  (p, g, l, warn1 ++ warn2 ++ (if loaded then [PubState 0] else [])).

(** *** The loop body, lines 140-245 *)

(** Lines 141-152: "process a new set of waypoints". *)
Definition process_new_waypoints (g : Globals) (l : Locals)
  : result (Locals * list Msg) :=
  if waypoints_rcvd g && waypoints_change_once l then
    wp <- at_index (current_waypoints g) 0 ;;
    let gx := to_float (position_x wp) in
    let gy := to_float (position_y wp) in
    Ok ({| state_data := 0;
           goal := (gx, gy);
           shutdown_condition := shutdown_condition l;
           nl := nl l;
           current_waypoint := 0;
           shutdown_count := shutdown_count l;
           waypoints_change_once := false |},
        [Print (NewWaypoints gx gy); PubState 0])
  else Ok (l, []).

(** Lines 219-236: progression along the waypoints. The boolean is [true]
    when the [break] of line 225 is taken. *)
Definition check_progression (p : Params) (g : Globals) (l : Locals)
    (d : double) : result (Locals * list Msg * bool) :=
  let wps := current_waypoints g in
  if to_size_t (current_waypoint l) =? to_size_t (size wps - 1) then
    if within p d || shutdown_condition l then
      let count := wrap32 (shutdown_count l + 1) in
      Ok ({| state_data := shutdown_behavior p;
             goal := goal l;
             shutdown_condition := true;
             nl := nl l;
             current_waypoint := current_waypoint l;
             shutdown_count := count;
             waypoints_change_once := waypoints_change_once l |},
          [PubState (shutdown_behavior p)],
          10 <? count)
    else Ok (l, [], false)
  else
    '(cw, gl) <-
      (if within p d then
         let cw := wrap32 (current_waypoint l + 1) in
         wp <- at_index wps cw ;;
         Ok (cw, (to_float (position_x wp), to_float (position_y wp)))
       else Ok (current_waypoint l, goal l)) ;;
    Ok ({| state_data := 0;
           goal := gl;
           shutdown_condition := shutdown_condition l;
           nl := nl l;
           current_waypoint := cw;
           shutdown_count := shutdown_count l;
           waypoints_change_once := waypoints_change_once l |},
        [PubState 0],
        false).

(** Lines 154-237. *)
Definition plan_and_track (p : Params) (g : Globals) (l : Locals)
  : result (Locals * list Msg * bool) :=
  if odom_rcvd g && negb (state_data l =? -1) then
    let pos := (to_float (odom_x (odom g)), to_float (odom_y (odom g))) in
    let path :=
      PlanPath (current_grid g) (segmentation_grid g) (goal l) pos in
    ros_path <- compose (current_waypoints g) (current_waypoint l) path ;;
    let d := distance (goal l) (odom g) in
    let out :=
      [PubPath ros_path; PubWaypoints (current_waypoints g);
       PubCurrentWaypoint (current_waypoint l); PubDist d]
      ++ (if Z.rem (nl l) 20 =? 0
          then [Print (DistanceToGoal (current_waypoint l) d)] else []) in
    '(l', out', brk) <- check_progression p g l d ;;
    Ok (l', out ++ out', brk)
  else Ok (l, [], false).

Definition next_nl (l : Locals) : Locals :=
  {| state_data := state_data l;
     goal := goal l;
     shutdown_condition := shutdown_condition l;
     nl := wrap32 (nl l + 1);
     current_waypoint := current_waypoint l;
     shutdown_count := shutdown_count l;
     waypoints_change_once := waypoints_change_once l |}.

(** One iteration up to, and not including, [spin_some]. *)
Definition loop_body (p : Params) (g : Globals) (l : Locals)
  : result (Locals * list Msg * bool) :=
  '(l1, out1) <- process_new_waypoints g l ;;
  '(l2, out2, brk) <- plan_and_track p g l1 ;;
  Ok (if brk then l2 else next_nl l2,
      PubState (state_data l) :: out1 ++ out2,
      brk).

(** The planner's answer in an iteration that tracks (lines 155-159). *)
Definition planned (g : Globals) (l : Locals) : list (float * float) :=
  PlanPath (current_grid g) (segmentation_grid g) (goal l)
    (to_float (odom_x (odom g)), to_float (odom_y (odom g))).

(** *** The loop *)

(** What one iteration leaves behind: the globals it ran with, the locals
    at its end and what it sent. *)
Record Tick := mkTick {
  tick_globals : Globals;
  tick_locals : Locals;
  tick_out : list Msg
}.

Inductive Status :=
| Running (g : Globals) (l : Locals)   (* [ok()] turned false *)
| Exited                               (* [break], then [return 0] *)
| Faulted (f : Fault).

(** [while (nature::node::ok())]: one element of [ins] per iteration for
    which [ok()] holds, giving the callbacks its [spin_some] runs. *)
Fixpoint run (p : Params) (ins : list (list Event)) (g : Globals)
    (l : Locals) : list Tick * Status :=
  match ins with
  | [] => ([], Running g l)
  | evs :: rest =>
      match loop_body p g l with
      | Undefined f => ([], Faulted f)
      | Ok (l', out, true) => ([mkTick g l' out], Exited)
      | Ok (l', out, false) =>
          let (ts, st) := run p rest (spin_some evs g) l' in
          (mkTick g l' out :: ts, st)
      end
  end.

Definition main (c : Config) (ins : list (list Event))
  : list Msg * (list Tick * Status) :=
  let '(p, g, l, out0) := main_init c in
  (out0, run p ins g l).

(** Everything sent by the ticks, in order. *)
Definition sent (ts : list Tick) : list Msg := flat_map tick_out ts.

(** The values published on [nature/state]. *)
Definition states_of (out : list Msg) : list Z :=
  flat_map (fun m => match m with PubState v => [v] | _ => [] end) out.

End Node.

(** ** Vocabulary of the properties *)

(** A received waypoint list is waiting to be processed (line 141). *)
Definition pending (g : Globals) (l : Locals) : bool :=
  waypoints_rcvd g && waypoints_change_once l.

(** The guard of line 154. *)
Definition tracking (g : Globals) (l : Locals) : bool :=
  odom_rcvd g && negb (state_data l =? -1).

(** The test of line 219, "last waypoint". *)
Definition last_index (g : Globals) (l : Locals) : bool :=
  to_size_t (current_waypoint l) =? to_size_t (size (current_waypoints g) - 1).

(** The current waypoint is an element of the list. *)
Definition in_range (g : Globals) (l : Locals) : Prop :=
  0 <= current_waypoint l < Z.of_nat (length (current_waypoints g)).

(** The shutdown behaviour after line 90. *)
Definition valid_behavior (p : Params) : Prop :=
  1 <= shutdown_behavior p <= 3.

(** The goal the node derives from a waypoint. *)
Definition goal_of (wp : PoseStamped) : float * float :=
  (to_float (position_x wp), to_float (position_y wp)).

(** The locals after "process a new set of waypoints" has run. *)
Definition restarted (wp : PoseStamped) (l : Locals) : Locals :=
  {| state_data := 0;
     goal := goal_of wp;
     shutdown_condition := shutdown_condition l;
     nl := nl l;
     current_waypoint := 0;
     shutdown_count := shutdown_count l;
     waypoints_change_once := false |}.

(** The locals after the shutdown behaviour has been requested. *)
Definition requested (p : Params) (l : Locals) : Locals :=
  {| state_data := shutdown_behavior p;
     goal := goal l;
     shutdown_condition := true;
     nl := nl l;
     current_waypoint := current_waypoint l;
     shutdown_count := wrap32 (shutdown_count l + 1);
     waypoints_change_once := waypoints_change_once l |}.

(** The locals after the branch of an intermediate waypoint, with the index
    and goal it leaves. *)
Definition active_at (cw : Z) (gl : float * float) (l : Locals) : Locals :=
  {| state_data := 0;
     goal := gl;
     shutdown_condition := shutdown_condition l;
     nl := nl l;
     current_waypoint := cw;
     shutdown_count := shutdown_count l;
     waypoints_change_once := waypoints_change_once l |}.

(** The four messages of lines 202-215 and the line printed every 20th
    iteration. *)
Definition progress_report (g : Globals) (l : Locals) (ros_path : Path)
  : list Msg :=
  let d := distance (goal l) (odom g) in
  [PubPath ros_path; PubWaypoints (current_waypoints g);
   PubCurrentWaypoint (current_waypoint l); PubDist d]
  ++ (if Z.rem (nl l) 20 =? 0
      then [Print (DistanceToGoal (current_waypoint l) d)] else []).

(** The last waypoint is being tracked and is reached, now or earlier. *)
Definition Arrived (p : Params) (g : Globals) (l : Locals) : Prop :=
  tracking g l = true
  /\ pending g l = false
  /\ last_index g l = true
  /\ within p (distance (goal l) (odom g)) || shutdown_condition l = true.

(** The lifecycle state is start-up, active, or the shutdown behaviour; the
    latter only after an odometry message and with [shutdown_condition]. *)
Definition Lifecycle (p : Params) (g : Globals) (l : Locals) : Prop :=
  state_data l = -1
  \/ state_data l = 0
  \/ (state_data l = shutdown_behavior p
      /\ odom_rcvd g = true /\ shutdown_condition l = true).

(** The tick ended with the shutdown behaviour requested. *)
Definition requests_shutdown (p : Params) (t : Tick) : bool :=
  state_data (tick_locals t) =? shutdown_behavior p.

(** The values the node may publish on [nature/state]. *)
Definition lifecycle_value (p : Params) (v : Z) : Prop :=
  v = -1 \/ v = 0 \/ v = shutdown_behavior p.

(** An iteration that found the last waypoint reached: index and goal are
    those of [l], and the last state it published is the shutdown
    behaviour. *)
Definition halted_tick (p : Params) (l : Locals) (t : Tick) : Prop :=
  current_waypoint (tick_locals t) = current_waypoint l
  /\ goal (tick_locals t) = goal l
  /\ state_data (tick_locals t) = shutdown_behavior p
  /\ exists before, states_of (tick_out t) = before ++ [shutdown_behavior p].

(** The parameters, globals and locals with which the loop starts. *)
Definition init_params (c : Config) : Params := fst (fst (fst (main_init c))).
Definition init_globals (c : Config) : Globals := snd (fst (fst (main_init c))).
Definition init_locals (c : Config) : Locals := snd (fst (main_init c)).

(** How many ticks requested the shutdown behaviour. *)
Definition count_requests (p : Params) (ts : list Tick) : Z :=
  Z.of_nat (length (filter (requests_shutdown p) ts)).

(** How many ticks in a row, up to the last one, requested it. *)
Fixpoint leading (f : Tick -> bool) (ts : list Tick) : nat :=
  match ts with
  | [] => O
  | t :: rest => if f t then S (leading f rest) else O
  end.

Definition consecutive_requests (p : Params) (ts : list Tick) : nat :=
  leading (requests_shutdown p) (rev ts).

(** In how many spins of the loop a waypoint list is delivered. *)
Definition replacements (ins : list (list Event)) : nat :=
  length (filter (fun evs => negb (no_waypoints evs)) ins).

(** Every delivered waypoint list can be indexed by an [int]. *)
Definition event_fits (e : Event) : bool :=
  match e with
  | EvWaypoints w => Z.of_nat (length w) <=? INT_MAX
  | _ => true
  end.

Definition lists_fit (ins : list (list Event)) : Prop :=
  forallb (forallb event_fits) ins = true.

(** Nothing to track yet, or the current waypoint is an element of the
    list. *)
Definition settled (g : Globals) (l : Locals) : Prop :=
  (current_waypoints g = [] /\ state_data l = -1) \/ in_range g l.

(** The index of a tick lies within the list the tick ran with, when that
    list has at least one element. *)
Definition index_ok (t : Tick) : Prop :=
  1 <= Z.of_nat (length (current_waypoints (tick_globals t))) ->
  0 <= current_waypoint (tick_locals t)
    < Z.of_nat (length (current_waypoints (tick_globals t))).

(** From one tick to the next the index does not decrease, except in a tick
    that processed a received list (it clears [waypoints_change_once]). *)
Fixpoint never_back (cw : Z) (once : bool) (ts : list Tick) : Prop :=
  match ts with
  | [] => True
  | t :: rest =>
      (waypoints_change_once (tick_locals t) = once ->
       cw <= current_waypoint (tick_locals t))
      /\ never_back (current_waypoint (tick_locals t))
           (waypoints_change_once (tick_locals t)) rest
  end.

(** ** Vocabulary of the cache, report and goal properties *)

Definition is_odometry (e : Event) : bool :=
  match e with
  | EvOdometry _ => true
  | _ => false
  end.

(** No odometry message is delivered by these events. *)
Definition no_odometry (evs : list Event) : bool :=
  forallb (fun e => negb (is_odometry e)) evs.

(** The last message of each kind among the events, if any. *)
Definition latest_odometry (evs : list Event) : option Odometry :=
  fold_left (fun acc e => match e with EvOdometry o => Some o | _ => acc end)
    evs None.

Definition latest_map (evs : list Event) : option OccupancyGrid :=
  fold_left (fun acc e => match e with EvMap m => Some m | _ => acc end)
    evs None.

Definition latest_segmentation_map (evs : list Event) : option OccupancyGrid :=
  fold_left
    (fun acc e => match e with EvSegmentationMap m => Some m | _ => acc end)
    evs None.

Definition latest_waypoints (evs : list Event) : option Path :=
  fold_left (fun acc e => match e with EvWaypoints w => Some w | _ => acc end)
    evs None.

Definition or_else {A : Type} (o : option A) (a : A) : A :=
  match o with
  | Some b => b
  | None => a
  end.

Definition is_some {A : Type} (o : option A) : bool :=
  match o with
  | Some _ => true
  | None => false
  end.

(** The messages on the four topics other than [nature/state]. *)
Definition is_report (m : Msg) : bool :=
  match m with
  | PubPath _ | PubWaypoints _ | PubCurrentWaypoint _ | PubDist _ => true
  | _ => false
  end.

Definition reports (out : list Msg) : list Msg := filter is_report out.

Definition is_distance_line (m : Msg) : bool :=
  match m with
  | Print (DistanceToGoal _ _) => true
  | _ => false
  end.

Definition is_dist (m : Msg) : bool :=
  match m with
  | PubDist _ => true
  | _ => false
  end.

(** The iteration wrote the "Distance to goal" line. *)
Definition prints_distance (out : list Msg) : bool :=
  existsb is_distance_line out.

(** The iteration published on [nature/distance_to_current_waypoint]. *)
Definition publishes_distance (out : list Msg) : bool := existsb is_dist out.

(** The goal is the position of the current waypoint, as the node converts
    it to [float]. *)
Definition goal_on_waypoint (g : Globals) (l : Locals) : Prop :=
  exists wp,
    nth_error (current_waypoints g) (Z.to_nat (current_waypoint l)) = Some wp
    /\ goal l = goal_of wp.

(** A value that [static_cast<float>] followed by the promotion back to
    [double] leaves as [static_cast<float>] made it. *)
Definition float_stable (x : double) : Prop :=
  to_float (to_double (to_float x)) = to_float x.

(** An iteration that ends out of start-up has its goal on the current
    waypoint. *)
Definition goal_ok (t : Tick) : Prop :=
  state_data (tick_locals t) <> -1 ->
  goal_on_waypoint (tick_globals t) (tick_locals t).

(** An iteration that ends in the shutdown state tracked the last index,
    with a pose, and left [shutdown_condition] set. *)
Definition requesting_at_last (p : Params) (t : Tick) : Prop :=
  state_data (tick_locals t) = shutdown_behavior p ->
  last_index (tick_globals t) (tick_locals t) = true
  /\ odom_rcvd (tick_globals t) = true
  /\ shutdown_condition (tick_locals t) = true.



(** ** Concrete inputs used in the examples *)

Module Examples.

(** A planner that answers with the straight segment from the vehicle to
    the goal. *)
Definition line_planner (_ _ : OccupancyGrid) (goal pos : float * float)
  : list (float * float) := [pos; goal].

Definition pt (x y : Z) : PoseStamped := mkPose (double_of_Z x) (double_of_Z y).
Definition at_xy (x y : Z) : Odometry := mkOdom (double_of_Z x) (double_of_Z y).
Definition row (x y : Z) : float * float := (float_of_Z x, float_of_Z y).

(** No waypoint in the static configuration. *)
Definition cfg_empty (behavior : Z) : Config :=
  mkConfig (float_of_Z 3) behavior [] [].

(** One waypoint, at the origin. *)
Definition cfg_origin (behavior : Z) : Config :=
  mkConfig (float_of_Z 3) behavior [double_of_Z 0] [double_of_Z 0].

(** Three x coordinates for two y coordinates. *)
Definition cfg_mismatch : Config :=
  mkConfig (float_of_Z 3) 1
    [double_of_Z 1; double_of_Z 2; double_of_Z 3]
    [double_of_Z 4; double_of_Z 5].

(** No x coordinate for two y coordinates. *)
Definition cfg_no_x : Config :=
  mkConfig (float_of_Z 3) 1 [] [double_of_Z 4; double_of_Z 5].

Definition three_waypoints : Path := [pt 0 0; pt 10 0; pt 20 0].

Definition idle (n : nat) : list (list Event) := repeat [] n.

(** The node with one waypoint at the origin and the vehicle on it: the
    shutdown behaviour is requested from the second iteration on. After the
    sixth iteration a list of two waypoints arrives. *)
Definition interrupted_shutdown : list (list Event) :=
  [EvOdometry (at_xy 0 0)] :: idle 4
  ++ [[EvWaypoints [pt 0 0; pt 100 100]]] ++ idle 7.

(** The same, with the list arriving right after the first request. *)
Definition shutdown_then_waypoints : list (list Event) :=
  [[EvOdometry (at_xy 0 0)]; [EvWaypoints [pt 0 0; pt 100 100]]; []].

(** A first list of three waypoints, then a second list of one. *)
Definition two_lists : list (list Event) :=
  [[EvOdometry (at_xy 0 0); EvWaypoints three_waypoints];
   [EvWaypoints [pt 5 5]];
   []].

(** An empty list is received while the node is in start-up. *)
Definition empty_list_received : list (list Event) :=
  [[EvWaypoints []]; []].

(** The threshold 3.0 with a shutdown behaviour. *)
Definition params (behavior : Z) : Params := mkParams (float_of_Z 3) behavior.

(** The vehicle at the origin, the three waypoints loaded. *)
Definition at_origin : Globals :=
  {| odom := at_xy 0 0;
     odom_rcvd := true;
     current_grid := [];
     segmentation_grid := [];
     current_waypoints := three_waypoints;
     waypoints_rcvd := false |}.

(** The vehicle on the last of the three waypoints. *)
Definition at_last_waypoint : Globals :=
  {| odom := at_xy 20 0;
     odom_rcvd := true;
     current_grid := [];
     segmentation_grid := [];
     current_waypoints := three_waypoints;
     waypoints_rcvd := false |}.

(** Active, tracking waypoint [cw] of [three_waypoints], the goal at
    [(x, y)]. *)
Definition tracking_waypoint (cw x y : Z) : Locals :=
  {| state_data := 0;
     goal := row x y;
     shutdown_condition := false;
     nl := 0;
     current_waypoint := cw;
     shutdown_count := 0;
     waypoints_change_once := true |}.

(** Two waypoints, then grid messages only. *)
Definition cfg_two : Config :=
  mkConfig (float_of_Z 3) 2
    [double_of_Z 0; double_of_Z 10] [double_of_Z 0; double_of_Z 0].

(** The vehicle far from the last of the three waypoints. *)
Definition far_from_last : Globals :=
  {| odom := at_xy 0 0;
     odom_rcvd := true;
     current_grid := [];
     segmentation_grid := [];
     current_waypoints := three_waypoints;
     waypoints_rcvd := false |}.

(** A list of one waypoint has replaced the list while the index was 2. *)
Definition shorter_list (x y : Z) : Globals :=
  {| odom := at_xy x y;
     odom_rcvd := true;
     current_grid := [];
     segmentation_grid := [];
     current_waypoints := [pt 5 5];
     waypoints_rcvd := true |}.

(** Active on waypoint [cw], goal [(x, y)], after a first list has been
    processed, with [shutdown_condition] as given. *)
Definition after_first_list (cw x y : Z) (reached : bool) : Locals :=
  {| state_data := 0;
     goal := row x y;
     shutdown_condition := reached;
     nl := 7;
     current_waypoint := cw;
     shutdown_count := 0;
     waypoints_change_once := false |}.

(** Events of every kind but waypoint lists. *)
Definition busy_spin : list Event :=
  [EvOdometry (at_xy 1 2); EvMap [1; 0]; EvSegmentationMap [0];
   EvOdometry (at_xy 3 4)].

(** [two_lists], and then the vehicle reaches the goal it kept from the
    first list. *)
Definition stale_index_then_pose : list (list Event) :=
  [[EvOdometry (at_xy 0 0); EvWaypoints three_waypoints];
   [EvWaypoints [pt 5 5]];
   [EvOdometry (at_xy 10 0)];
   []].

End Examples.

(** * Properties *)

(** ** Integers and vectors *)

Lemma wrap32_small z : - 2 ^ 31 <= z < 2 ^ 31 -> wrap32 z = z.
Proof.
  intros H. unfold wrap32.
  rewrite Z.mod_small; lia.
Qed.

Lemma to_size_t_small z : 0 <= z < 2 ^ 64 -> to_size_t z = z.
Proof. intros H. unfold to_size_t. now rewrite Z.mod_small. Qed.

Lemma size_fits {A : Type} (v : list A) :
  fits_int v -> size v = Z.of_nat (length v).
Proof.
  unfold fits_int, INT_MAX, size. intros H.
  apply to_size_t_small. lia.
Qed.

Lemma at_index_nth {A : Type} (v : list A) (i : Z) (a : A) :
  0 <= i < 2 ^ 64 ->
  nth_error v (Z.to_nat i) = Some a ->
  at_index v i = Ok a.
Proof.
  intros Hi Hn. unfold at_index.
  rewrite (to_size_t_small i Hi), Hn. reflexivity.
Qed.

Lemma at_index_Ok {A : Type} (v : list A) (i : Z) (a : A) :
  at_index v i = Ok a ->
  nth_error v (Z.to_nat (to_size_t i)) = Some a.
Proof.
  unfold at_index.
  destruct (nth_error v (Z.to_nat (to_size_t i))); congruence.
Qed.

Lemma at_index_in_range {A : Type} (v : list A) (i : Z) :
  fits_int v -> 0 <= i < Z.of_nat (length v) ->
  exists a, nth_error v (Z.to_nat i) = Some a /\ at_index v i = Ok a.
Proof.
  unfold fits_int, INT_MAX. intros Hv Hi.
  destruct (nth_error v (Z.to_nat i)) as [a|] eqn:E.
  - exists a. split; [reflexivity|]. apply at_index_nth; [lia | exact E].
  - apply nth_error_None in E. lia.
Qed.

Lemma at_index_nil {A : Type} (i : Z) :
  at_index (@nil A) i = Undefined (OutOfRange (to_size_t i) 0).
Proof.
  unfold at_index. destruct (Z.to_nat (to_size_t i)); reflexivity.
Qed.

Lemma skipn_nth_cons {A : Type} (v : list A) (n : nat) (a : A) :
  nth_error v n = Some a -> skipn n v = a :: skipn (S n) v.
Proof.
  revert v. induction n as [|n IH]; intros [|b v] H; simpl in H; try discriminate.
  - now inversion H.
  - change (skipn n v = a :: skipn (S n) v). now apply IH.
Qed.

(** ** The waypoints appended to the planned path *)

(** The loop of lines 181-192, started at a valid index, appends the
    waypoints after that index and stops; the fuel is enough. *)
Lemma stitch_loop_appends (wps : Path) :
  fits_int wps ->
  forall (n fuel : nat) (cp : Z) (acc : Path),
    0 <= cp < Z.of_nat (length wps) ->
    Z.of_nat (length wps) - 1 - cp = Z.of_nat n ->
    (n <= fuel)%nat ->
    stitch_loop fuel wps cp acc
    = Ok (acc ++ map stitched (skipn (Z.to_nat (cp + 1)) wps)).
Proof.
  intros Hfit. pose proof Hfit as Hfit'. unfold fits_int, INT_MAX in Hfit'.
  induction n as [|n IH]; intros fuel cp acc Hcp Hn Hfuel.
  - assert (E : stitch_loop fuel wps cp acc = Ok acc).
    { destruct fuel; simpl; rewrite (size_fits wps Hfit);
        rewrite !to_size_t_small by lia;
        (destruct (Z.ltb_spec cp (Z.of_nat (length wps) - 1)); [lia|reflexivity]). }
    rewrite E, skipn_all2 by lia. simpl. now rewrite app_nil_r.
  - destruct fuel as [|fuel]; [lia|].
    simpl. rewrite (size_fits wps Hfit), !to_size_t_small by lia.
    destruct (Z.ltb_spec cp (Z.of_nat (length wps) - 1)) as [Hlt|]; [|lia].
    rewrite wrap32_small by lia.
    destruct (at_index_in_range wps (cp + 1) Hfit) as (wp & Hnth & Hat); [lia|].
    rewrite Hat. simpl.
    rewrite IH by lia.
    rewrite (skipn_nth_cons wps _ wp Hnth).
    replace (S (Z.to_nat (cp + 1))) with (Z.to_nat (cp + 1 + 1)) by lia.
    rewrite map_cons, <- app_assoc. reflexivity.
Qed.

(** With the index an [int] and the list small enough to be indexed by one,
    the loop never needs more iterations than the fuel it is given: when it
    has no result, that is for a read outside the list. *)
Lemma stitch_fuel_suffices (wps : Path) (cp : Z) (acc : Path) (f : Fault) :
  fits_int wps ->
  - 2 ^ 31 <= cp < 2 ^ 31 ->
  stitch_loop (S (length wps)) wps cp acc = Undefined f ->
  f <> OutOfFuel.
Proof.
  intros Hfit Hcp. pose proof Hfit as Hfit'. unfold fits_int, INT_MAX in Hfit'.
  destruct (Z_lt_le_dec cp 0) as [Hneg|Hpos].
  - cbn [stitch_loop]. rewrite (size_fits wps Hfit).
    destruct wps as [|wp wps'].
    + destruct (to_size_t cp <? to_size_t (Z.of_nat (length (@nil PoseStamped)) - 1));
        [|discriminate].
      rewrite at_index_nil. cbn [bind]. intros H. injection H as <-.
      discriminate.
    + assert (Hge : to_size_t (Z.of_nat (length (wp :: wps')) - 1)
                    <= to_size_t cp).
      { unfold to_size_t.
        rewrite (Z.mod_small (Z.of_nat (length (wp :: wps')) - 1))
          by (cbn [length] in *; lia).
        replace cp with (cp + 2 ^ 64 + (-1) * 2 ^ 64) by lia.
        rewrite Z.mod_add by lia. rewrite Z.mod_small by lia. lia. }
      destruct (Z.ltb_spec (to_size_t cp)
                  (to_size_t (Z.of_nat (length (wp :: wps')) - 1))); [lia|].
      discriminate.
  - destruct (Z_lt_le_dec cp (Z.of_nat (length wps))) as [Hin|Hout].
    + rewrite (stitch_loop_appends wps Hfit
                 (Z.to_nat (Z.of_nat (length wps) - 1 - cp))) by lia.
      discriminate.
    + cbn [stitch_loop]. rewrite (size_fits wps Hfit).
      destruct wps as [|wp wps'].
      * destruct (to_size_t cp <? to_size_t (Z.of_nat (length (@nil PoseStamped)) - 1));
          [|discriminate].
        rewrite at_index_nil. cbn [bind]. intros H. injection H as <-.
        discriminate.
      * rewrite !to_size_t_small by (cbn [length] in *; lia).
        destruct (Z.ltb_spec cp (Z.of_nat (length (wp :: wps')) - 1)); [lia|].
        discriminate.
Qed.

Lemma size_to_ros_path (path : list (float * float)) :
  size (to_ros_path path) = size path.
Proof. unfold size, to_ros_path. now rewrite length_map. Qed.

Lemma compose_long (wps : Path) (cw : Z) (path : list (float * float)) :
  1 < size path ->
  fits_int wps ->
  0 <= cw < Z.of_nat (length wps) ->
  compose wps cw path
  = Ok (to_ros_path path ++ map stitched (skipn (Z.to_nat (cw + 1)) wps)).
Proof.
  intros Hlong Hfit Hcw. unfold compose, stitch.
  rewrite size_to_ros_path.
  destruct (Z.ltb_spec 1 (size path)); [|lia].
  apply (stitch_loop_appends wps Hfit (Z.to_nat (Z.of_nat (length wps) - 1 - cw)));
    [exact Hcw | lia | lia].
Qed.

Lemma compose_short (wps : Path) (cw : Z) (path : list (float * float)) :
  size path <= 1 -> compose wps cw path = Ok (to_ros_path path).
Proof.
  intros Hshort. unfold compose, stitch. rewrite size_to_ros_path.
  destruct (Z.ltb_spec 1 (size path)); [lia | reflexivity].
Qed.

(** C9. The path compositor. A planned path of more than one point is
    published followed by the waypoints strictly after the current index, up
    to the last one, in increasing index order; each appended position goes
    through [static_cast<float>], so it is the waypoint's own position when
    that is a single-precision value. A planned path of at most one point is
    published as it is. With planned path [[1,1],[2,2]], waypoints
    [[0,0],[5,5],[9,9]] and index 0 the result is
    [[1,1],[2,2],[5,5],[9,9]]. *)
Theorem path_compositor_appends_remaining_waypoints :
  (forall (wps : Path) (current_waypoint : Z) (path : list (float * float)),
      1 < size path ->
      fits_int wps ->
      0 <= current_waypoint < Z.of_nat (length wps) ->
      compose wps current_waypoint path
      = Ok (to_ros_path path
            ++ map stitched (skipn (Z.to_nat (current_waypoint + 1)) wps)))
  /\ (forall (wps : Path) (current_waypoint : Z) (path : list (float * float)),
      1 < size path ->
      fits_int wps ->
      0 <= current_waypoint < Z.of_nat (length wps) ->
      Forall (fun wp => stitched wp = wp) wps ->
      compose wps current_waypoint path
      = Ok (to_ros_path path ++ skipn (Z.to_nat (current_waypoint + 1)) wps))
  /\ (forall (wps : Path) (current_waypoint : Z) (path : list (float * float)),
      size path <= 1 ->
      compose wps current_waypoint path = Ok (to_ros_path path))
  /\ compose [Examples.pt 0 0; Examples.pt 5 5; Examples.pt 9 9] 0
       [Examples.row 1 1; Examples.row 2 2]
     = Ok [Examples.pt 1 1; Examples.pt 2 2; Examples.pt 5 5; Examples.pt 9 9]
  /\ compose [Examples.pt 0 0; Examples.pt 5 5; Examples.pt 9 9] 0 [] = Ok []
  /\ compose [Examples.pt 0 0; Examples.pt 5 5; Examples.pt 9 9] 0
       [Examples.row 3 3]
     = Ok [Examples.pt 3 3].
Proof.
  split; [exact compose_long|].
  split.
  { intros wps cw path Hlong Hfit Hcw Hsingle.
    rewrite compose_long by assumption.
    do 2 f_equal.
    assert (Hall : Forall (fun wp => stitched wp = wp)
                     (skipn (Z.to_nat (cw + 1)) wps)).
    { apply Forall_forall. intros wp Hin.
      rewrite Forall_forall in Hsingle. apply Hsingle.
      rewrite <- (firstn_skipn (Z.to_nat (cw + 1)) wps).
      apply in_or_app. now right. }
    induction Hall as [|wp rest Hwp _ IH]; simpl; [reflexivity|].
    now rewrite Hwp, IH. }
  split; [exact compose_short|].
  repeat split; vm_compute; reflexivity.
Qed.

Lemma path_compositor_witness :
  compose Examples.three_waypoints 1 (Examples.line_planner [] [] (Examples.row 10 0) (Examples.row 1 1))
  = Ok [Examples.pt 1 1; Examples.pt 10 0; Examples.pt 20 0]
  /\ compose Examples.three_waypoints 1 [Examples.row 1 1] = Ok [Examples.pt 1 1].
Proof.
  split.
  - refine (eq_trans
      (proj1 path_compositor_appends_remaining_waypoints
         Examples.three_waypoints 1
         (Examples.line_planner [] [] (Examples.row 10 0) (Examples.row 1 1))
         _ _ _) _).
    + vm_compute. reflexivity.
    + unfold fits_int, INT_MAX. simpl. lia.
    + simpl. lia.
    + vm_compute. reflexivity.
  - refine (eq_trans
      (proj1 (proj2 (proj2 path_compositor_appends_remaining_waypoints))
         Examples.three_waypoints 1 [Examples.row 1 1] _) _).
    + vm_compute. discriminate.
    + vm_compute. reflexivity.
Defined.

(** ** One iteration, case by case *)

Lemma process_new_waypoints_inv (g : Globals) (l l1 : Locals) (out1 : list Msg) :
  process_new_waypoints g l = Ok (l1, out1) ->
  (pending g l = false /\ l1 = l /\ out1 = [])
  \/ (pending g l = true
      /\ exists wp rest,
          current_waypoints g = wp :: rest
          /\ l1 = restarted wp l
          /\ out1 = [Print (NewWaypoints (fst (goal_of wp)) (snd (goal_of wp)));
                     PubState 0]).
Proof.
  unfold process_new_waypoints, pending.
  destruct (waypoints_rcvd g && waypoints_change_once l).
  - destruct (current_waypoints g) as [|wp rest] eqn:E.
    + rewrite at_index_nil. discriminate.
    + unfold at_index. simpl. intros H. inversion H. right.
      split; [reflexivity|]. now exists wp, rest.
  - intros H. inversion H. now left.
Qed.

Lemma process_new_waypoints_done (g : Globals) (l l1 : Locals)
    (out1 : list Msg) :
  process_new_waypoints g l = Ok (l1, out1) -> pending g l1 = false.
Proof.
  intros H. apply process_new_waypoints_inv in H.
  destruct H as [(Hp & -> & _)|(_ & wp & rest & _ & -> & _)]; [exact Hp|].
  unfold pending. cbn. apply andb_false_r.
Qed.

Lemma process_new_waypoints_idle (g : Globals) (l : Locals) :
  pending g l = false -> process_new_waypoints g l = Ok (l, []).
Proof.
  unfold process_new_waypoints, pending. now intros ->.
Qed.

Lemma process_new_waypoints_restart (g : Globals) (l : Locals)
    (wp : PoseStamped) (rest : Path) :
  pending g l = true ->
  current_waypoints g = wp :: rest ->
  process_new_waypoints g l
  = Ok (restarted wp l,
        [Print (NewWaypoints (fst (goal_of wp)) (snd (goal_of wp))); PubState 0]).
Proof.
  unfold process_new_waypoints, pending. intros -> ->. reflexivity.
Qed.


Lemma check_progression_inv (p : Params) (g : Globals) (l l2 : Locals)
    (d : double) (out : list Msg) (brk : bool) :
  check_progression p g l d = Ok (l2, out, brk) ->
  (last_index g l = true /\ within p d || shutdown_condition l = true
   /\ l2 = requested p l /\ out = [PubState (shutdown_behavior p)]
   /\ brk = (10 <? wrap32 (shutdown_count l + 1)))
  \/ (last_index g l = true /\ within p d || shutdown_condition l = false
      /\ l2 = l /\ out = [] /\ brk = false)
  \/ (last_index g l = false /\ within p d = true
      /\ (exists wp,
             at_index (current_waypoints g) (wrap32 (current_waypoint l + 1))
             = Ok wp
             /\ l2 = active_at (wrap32 (current_waypoint l + 1)) (goal_of wp) l)
      /\ out = [PubState 0] /\ brk = false)
  \/ (last_index g l = false /\ within p d = false
      /\ l2 = active_at (current_waypoint l) (goal l) l
      /\ out = [PubState 0] /\ brk = false).
Proof.
  unfold check_progression, last_index.
  destruct (to_size_t (current_waypoint l)
            =? to_size_t (size (current_waypoints g) - 1)).
  - destruct (within p d || shutdown_condition l); intros H; inversion H.
    + left. repeat split; reflexivity.
    + right; left. repeat split; reflexivity.
  - destruct (within p d).
    + destruct (at_index (current_waypoints g) (wrap32 (current_waypoint l + 1)))
        as [wp|f] eqn:E; simpl; intros H; inversion H.
      right; right; left. repeat split; try reflexivity.
      exists wp. split; reflexivity.
    + simpl. intros H; inversion H.
      right; right; right. repeat split; reflexivity.
Qed.

Section Iteration.

Variable PlanPath :
  OccupancyGrid -> OccupancyGrid -> float * float -> float * float ->
  list (float * float).

Lemma plan_and_track_inv (p : Params) (g : Globals) (l l2 : Locals)
    (out : list Msg) (brk : bool) :
  plan_and_track PlanPath p g l = Ok (l2, out, brk) ->
  (tracking g l = false /\ l2 = l /\ out = [] /\ brk = false)
  \/ (tracking g l = true
      /\ exists ros_path out',
          out = progress_report g l ros_path ++ out'
          /\ check_progression p g l (distance (goal l) (odom g))
             = Ok (l2, out', brk)).
Proof.
  unfold plan_and_track, tracking.
  destruct (odom_rcvd g && negb (state_data l =? -1)).
  - destruct (compose _ _ _) as [ros_path|f]; simpl; [|discriminate].
    destruct (check_progression p g l (distance (goal l) (odom g)))
      as [[[l' out'] brk']|f] eqn:E; simpl; [|discriminate].
    intros H; inversion H; subst. right. split; [reflexivity|].
    exists ros_path, out'. split; reflexivity.
  - intros H; inversion H. now left.
Qed.

Lemma compose_at_last (g : Globals) (l : Locals) (path : list (float * float)) :
  last_index g l = true ->
  compose (current_waypoints g) (current_waypoint l) path
  = Ok (to_ros_path path).
Proof.
  unfold last_index, compose, stitch. intros Hlast.
  apply Z.eqb_eq in Hlast.
  destruct (1 <? size (to_ros_path path)); [|reflexivity].
  simpl. rewrite Hlast, Z.ltb_irrefl. reflexivity.
Qed.

Lemma states_of_app (a b : list Msg) :
  states_of (a ++ b) = states_of a ++ states_of b.
Proof. unfold states_of. apply flat_map_app. Qed.

Lemma states_of_cons (v : Z) (out : list Msg) :
  states_of (PubState v :: out) = v :: states_of out.
Proof. reflexivity. Qed.

Lemma states_of_progress_report (g : Globals) (l : Locals) (ros_path : Path) :
  states_of (progress_report g l ros_path) = [].
Proof.
  unfold progress_report. destruct (Z.rem (nl l) 20 =? 0); reflexivity.
Qed.

Lemma states_end_shape (v b : Z) (out1 : list Msg) (g : Globals) (l : Locals)
    (ros_path : Path) :
  exists before,
    states_of (PubState v :: out1 ++ progress_report g l ros_path
                                  ++ [PubState b])
    = before ++ [b].
Proof.
  exists (v :: states_of out1).
  rewrite states_of_cons, !states_of_app, states_of_progress_report.
  reflexivity.
Qed.

Lemma plan_and_track_run (p : Params) (g : Globals) (l : Locals)
    (ros_path : Path) :
  tracking g l = true ->
  compose (current_waypoints g) (current_waypoint l) (planned PlanPath g l)
  = Ok ros_path ->
  plan_and_track PlanPath p g l
  = ('(l', out', brk) <-
       check_progression p g l (distance (goal l) (odom g)) ;;
     Ok (l', progress_report g l ros_path ++ out', brk)).
Proof.
  unfold plan_and_track, tracking, planned. intros -> ->. reflexivity.
Qed.

(** An iteration that finds the last waypoint reached requests the shutdown
    behaviour and leaves index and goal alone. *)
Lemma arrived_step (p : Params) (g : Globals) (l : Locals) :
  Arrived p g l ->
  loop_body PlanPath p g l
  = Ok (if 10 <? wrap32 (shutdown_count l + 1)
        then requested p l else next_nl (requested p l),
        PubState (state_data l)
        :: progress_report g l (to_ros_path (planned PlanPath g l))
           ++ [PubState (shutdown_behavior p)],
        10 <? wrap32 (shutdown_count l + 1)).
Proof.
  intros (Htrack & Hpend & Hlast & Hreach). unfold loop_body.
  rewrite (process_new_waypoints_idle g l Hpend). simpl.
  rewrite (plan_and_track_run p g l _ Htrack (compose_at_last g l _ Hlast)).
  unfold check_progression. unfold last_index in Hlast.
  rewrite Hlast, Hreach. reflexivity.
Qed.

Lemma loop_body_inv (p : Params) (g : Globals) (l l' : Locals)
    (out : list Msg) (brk : bool) :
  loop_body PlanPath p g l = Ok (l', out, brk) ->
  exists l1 out1 l2 out2,
    process_new_waypoints g l = Ok (l1, out1)
    /\ plan_and_track PlanPath p g l1 = Ok (l2, out2, brk)
    /\ l' = (if brk then l2 else next_nl l2)
    /\ out = PubState (state_data l) :: out1 ++ out2.
Proof.
  unfold loop_body.
  destruct (process_new_waypoints g l) as [[l1 out1]|f] eqn:E1;
    simpl; [|discriminate].
  destruct (plan_and_track PlanPath p g l1) as [[[l2 out2] brk2]|f] eqn:E2;
    simpl; [|discriminate].
  intros H; inversion H; subst.
  exists l1, out1, l2, out2. auto.
Qed.

End Iteration.

Ltac iteration_cases H :=
  let l1 := fresh "l1" in
  let out1 := fresh "out1" in
  let l2 := fresh "l2" in
  let out2 := fresh "out2" in
  let Hproc := fresh "Hproc" in
  let Htrack := fresh "Htrack" in
  let Hcheck := fresh "Hcheck" in
  let Hpend := fresh "Hpend" in
  let Htr := fresh "Htr" in
  let Hlast := fresh "Hlast" in
  let Hreach := fresh "Hreach" in
  let Hwps := fresh "Hwps" in
  let Hat := fresh "Hat" in
  let wp := fresh "wp" in
  let rest := fresh "rest" in
  let nxt := fresh "nxt" in
  let ros_path := fresh "ros_path" in
  let out' := fresh "out'" in
  apply loop_body_inv in H;
  destruct H as (l1 & out1 & l2 & out2 & Hproc & Htrack & -> & ->);
  apply process_new_waypoints_inv in Hproc;
  destruct Hproc as [(Hpend & -> & ->) | (Hpend & wp & rest & Hwps & -> & ->)];
  apply plan_and_track_inv in Htrack;
  destruct Htrack as [(Htr & -> & -> & ->)
                     | (Htr & ros_path & out' & -> & Hcheck)];
  try (apply check_progression_inv in Hcheck;
       destruct Hcheck as
         [(Hlast & Hreach & -> & -> & ->)
         | [(Hlast & Hreach & -> & -> & ->)
           | [(Hlast & Hreach & (nxt & Hat & ->) & -> & ->)
             | (Hlast & Hreach & -> & -> & ->)]]]).


Lemma sent_cons (t : Tick) (ts : list Tick) :
  sent (t :: ts) = tick_out t ++ sent ts.
Proof. reflexivity. Qed.

(** ** Callbacks *)

Lemma deliver_quiet (g : Globals) (e : Event) :
  is_waypoints e = false ->
  current_waypoints (deliver g e) = current_waypoints g
  /\ waypoints_rcvd (deliver g e) = waypoints_rcvd g.
Proof. destruct e; simpl; intros H; try discriminate; split; reflexivity. Qed.

Lemma deliver_odom_rcvd (g : Globals) (e : Event) :
  odom_rcvd g = true -> odom_rcvd (deliver g e) = true.
Proof. destruct e; simpl; auto. Qed.

Lemma spin_some_quiet (evs : list Event) (g : Globals) :
  no_waypoints evs = true ->
  current_waypoints (spin_some evs g) = current_waypoints g
  /\ waypoints_rcvd (spin_some evs g) = waypoints_rcvd g.
Proof.
  unfold spin_some, no_waypoints. revert g.
  induction evs as [|e evs IH]; intros g H; simpl in *; [now split|].
  apply andb_true_iff in H. destruct H as [He Hevs].
  apply negb_true_iff in He.
  destruct (deliver_quiet g e He) as [Hw Hr].
  destruct (IH (deliver g e) Hevs) as [Hw' Hr'].
  split; congruence.
Qed.

Lemma spin_some_odom_rcvd (evs : list Event) (g : Globals) :
  odom_rcvd g = true -> odom_rcvd (spin_some evs g) = true.
Proof.
  unfold spin_some. revert g.
  induction evs as [|e evs IH]; intros g H; simpl; [exact H|].
  apply IH. now apply deliver_odom_rcvd.
Qed.

(** ** After the last waypoint is reached *)

Section Shutdown.

Variable PlanPath :
  OccupancyGrid -> OccupancyGrid -> float * float -> float * float ->
  list (float * float).

Variable p : Params.
Hypothesis Hvalid : valid_behavior p.

Lemma arrived_spin_some (g : Globals) (l : Locals) (evs : list Event) :
  Arrived p g l ->
  shutdown_condition l = true ->
  no_waypoints evs = true ->
  Arrived p (spin_some evs g) l.
Proof.
  intros (Htrack & Hpend & Hlast & _) Hsc Hq.
  destruct (spin_some_quiet evs g Hq) as [Hw Hr].
  unfold tracking in Htrack. apply andb_true_iff in Htrack.
  destruct Htrack as [Hodom Hstate].
  unfold Arrived, tracking, pending, last_index in *.
  rewrite Hw, Hr, (spin_some_odom_rcvd evs g Hodom), Hstate, Hsc.
  repeat split; try assumption. apply orb_true_r.
Qed.

Lemma arrived_requested (g : Globals) (l : Locals) (b : bool) :
  tracking g l = true ->
  pending g l = false ->
  last_index g l = true ->
  Arrived p g (if b then requested p l else next_nl (requested p l)).
Proof.
  intros Htrack Hpend Hlast.
  unfold tracking in Htrack. apply andb_true_iff in Htrack.
  destruct Htrack as [Hodom _].
  unfold Arrived, tracking, pending, last_index in *.
  destruct b; cbn; rewrite Hodom; repeat split; try assumption;
    try apply orb_true_r;
    apply negb_true_iff, Z.eqb_neq; unfold valid_behavior in Hvalid; lia.
Qed.

Lemma arrived_next (g : Globals) (l : Locals) (evs : list Event) :
  Arrived p g l ->
  no_waypoints evs = true ->
  Arrived p (spin_some evs g) (next_nl (requested p l)).
Proof.
  intros (Htrack & Hpend & Hlast & _) Hq.
  apply arrived_spin_some; [|reflexivity|exact Hq].
  exact (arrived_requested g l false Htrack Hpend Hlast).
Qed.

Lemma halted_tick_shape (g : Globals) (l : Locals) (b : bool) (v : Z)
    (ros_path : Path) :
  halted_tick p l
    (mkTick g (if b then requested p l else next_nl (requested p l))
       (PubState v :: progress_report g l ros_path
                      ++ [PubState (shutdown_behavior p)])).
Proof.
  unfold halted_tick. cbn [tick_locals tick_out].
  repeat split; try (now destruct b).
  exists [v].
  rewrite states_of_cons, states_of_app, states_of_progress_report.
  reflexivity.
Qed.

Lemma arrived_tick (g : Globals) (l l' : Locals) (out : list Msg) (brk : bool) :
  Arrived p g l ->
  loop_body PlanPath p g l = Ok (l', out, brk) ->
  halted_tick p l (mkTick g l' out).
Proof.
  intros Harr. rewrite (arrived_step PlanPath p g l Harr).
  intros H. injection H as <- <- <-. apply halted_tick_shape.
Qed.

Lemma halted_tick_next (l : Locals) (t : Tick) :
  halted_tick p (next_nl (requested p l)) t -> halted_tick p l t.
Proof. unfold halted_tick. simpl. auto. Qed.

(** Without a new waypoint list every further iteration requests the
    shutdown behaviour again, and none goes wrong. *)
Lemma arrived_run_ticks (ins : list (list Event)) :
  forall (g : Globals) (l : Locals),
    Arrived p g l ->
    forallb no_waypoints ins = true ->
    Forall (halted_tick p l) (fst (run PlanPath p ins g l))
    /\ (forall f, snd (run PlanPath p ins g l) <> Faulted f).
Proof.
  induction ins as [|evs rest IH]; intros g l Harr Hq; simpl.
  - split; [constructor | discriminate].
  - apply andb_true_iff in Hq. destruct Hq as [Hevs Hrest].
    pose proof (arrived_tick g l) as Htick.
    rewrite (arrived_step PlanPath p g l Harr) in *.
    destruct (10 <? wrap32 (shutdown_count l + 1)); simpl.
    + split; [|discriminate].
      constructor; [|constructor]. now eapply Htick.
    + specialize (IH _ _ (arrived_next g l evs Harr Hevs) Hrest).
      destruct (run PlanPath p rest (spin_some evs g) (next_nl (requested p l)))
        as [ts st]. simpl in *. destruct IH as [IHt IHs].
      split; [|exact IHs].
      constructor; [now eapply Htick|].
      eapply Forall_impl; [|exact IHt]. apply halted_tick_next.
Qed.

(** The loop is left in the iteration that brings [shutdown_count] to 11:
    the [k]-th from a state where the count is [11 - k]. *)
Lemma arrived_run_exit (ins : list (list Event)) :
  forall (k : nat) (g : Globals) (l : Locals),
    Arrived p g l ->
    forallb no_waypoints ins = true ->
    (1 <= k <= 11)%nat ->
    shutdown_count l = 11 - Z.of_nat k ->
    length (fst (run PlanPath p ins g l)) = Nat.min (length ins) k
    /\ ((k <= length ins)%nat -> snd (run PlanPath p ins g l) = Exited)
    /\ ((length ins < k)%nat ->
        exists g' l', snd (run PlanPath p ins g l) = Running g' l').
Proof.
  induction ins as [|evs rest IH]; intros k g l Harr Hq Hk Hcount.
  - cbn [run fst snd length]. split; [lia|]. split; [intros H; lia|].
    intros _. now exists g, l.
  - cbn [forallb] in Hq. apply andb_true_iff in Hq. destruct Hq as [Hevs Hrest].
    cbn [run]. rewrite (arrived_step PlanPath p g l Harr).
    rewrite wrap32_small by lia.
    destruct (Z.ltb_spec 10 (shutdown_count l + 1)) as [Hlast|Hmore].
    + assert (k = 1%nat) by lia. subst k.
      cbn [fst snd length]. repeat split; [lia|]. intros H. lia.
    + destruct k as [|k]; [lia|].
      specialize (IH k _ _ (arrived_next g l evs Harr Hevs) Hrest).
      cbn [shutdown_count next_nl requested] in IH.
      rewrite wrap32_small in IH by lia.
      destruct IH as (IHn & IHe & IHr); [lia|lia|].
      destruct (run PlanPath p rest (spin_some evs g) (next_nl (requested p l)))
        as [ts st].
      cbn [fst snd length] in *.
      repeat split.
      * lia.
      * intros H. apply IHe. lia.
      * intros H. apply IHr. lia.
Qed.

(** From a state that already shows the shutdown behaviour, nothing else
    is published. *)
Lemma arrived_run_states (ins : list (list Event)) :
  forall (g : Globals) (l : Locals),
    Arrived p g l ->
    state_data l = shutdown_behavior p ->
    forallb no_waypoints ins = true ->
    Forall (fun v => v = shutdown_behavior p)
      (states_of (sent (fst (run PlanPath p ins g l)))).
Proof.
  induction ins as [|evs rest IH]; intros g l Harr Hstate Hq; cbn [run].
  - constructor.
  - cbn [forallb] in Hq. apply andb_true_iff in Hq. destruct Hq as [Hevs Hrest].
    rewrite (arrived_step PlanPath p g l Harr).
    assert (Hout : Forall (fun v => v = shutdown_behavior p)
              (states_of
                 (PubState (state_data l)
                  :: progress_report g l (to_ros_path (planned PlanPath g l))
                     ++ [PubState (shutdown_behavior p)]))).
    { rewrite states_of_cons, states_of_app, states_of_progress_report.
      cbn. repeat apply Forall_cons; auto. }
    destruct (10 <? wrap32 (shutdown_count l + 1)).
    + cbn [fst]. rewrite sent_cons, states_of_app. cbn [tick_out sent flat_map].
      now rewrite app_nil_r.
    + specialize (IH _ _ (arrived_next g l evs Harr Hevs) eq_refl Hrest).
      destruct (run PlanPath p rest (spin_some evs g) (next_nl (requested p l)))
        as [ts st].
      cbn [fst] in *. rewrite sent_cons, states_of_app. cbn [tick_out].
      apply Forall_app. now split.
Qed.

(** An iteration either requests the shutdown behaviour, counting it, or
    ends in another state and leaves the count alone. *)
Lemma request_step (g : Globals) (l l' : Locals) (out : list Msg)
    (brk : bool) :
  Lifecycle p g l ->
  loop_body PlanPath p g l = Ok (l', out, brk) ->
  (state_data l' = shutdown_behavior p
   /\ Arrived p g l'
   /\ shutdown_condition l' = true
   /\ shutdown_count l' = wrap32 (shutdown_count l + 1)
   /\ brk = (10 <? wrap32 (shutdown_count l + 1))
   /\ exists before, states_of out = before ++ [shutdown_behavior p])
  \/ (state_data l' <> shutdown_behavior p
      /\ shutdown_count l' = shutdown_count l
      /\ brk = false).
Proof.
  intros Hinv H.
  unfold valid_behavior in Hvalid.
  iteration_cases H.
  all: try (right; cbn; repeat split; try reflexivity; lia).
  all: try (left; split;
            [now destruct (10 <? _)
            | split; [apply arrived_requested; auto;
                      unfold pending; cbn; apply andb_false_r
                     | split; [now destruct (10 <? _)
                              | split; [now destruct (10 <? _)
                                       | split; [reflexivity
                                                | apply states_end_shape]]]]]).
  - right. cbn. repeat split; try reflexivity.
    intros Hs. destruct Hinv as [Hi|[Hi|(_ & Ho & _)]]; try lia.
    unfold tracking in Htr. rewrite Ho, Hs in Htr. cbn in Htr.
    apply negb_false_iff, Z.eqb_eq in Htr. lia.
  - right. cbn. repeat split; try reflexivity.
    intros Hs. destruct Hinv as [Hi|[Hi|(_ & _ & Hc)]]; try lia.
    rewrite Hc, orb_true_r in Hreach. discriminate.
Qed.

End Shutdown.

(** ** The lifecycle invariant *)

Section Lifecycle.

Variable PlanPath :
  OccupancyGrid -> OccupancyGrid -> float * float -> float * float ->
  list (float * float).

Variable p : Params.

Lemma lifecycle_value_of (g : Globals) (l : Locals) :
  Lifecycle p g l -> lifecycle_value p (state_data l).
Proof. unfold Lifecycle, lifecycle_value. tauto. Qed.

Lemma lifecycle_spin_some (g : Globals) (l : Locals) (evs : list Event) :
  Lifecycle p g l -> Lifecycle p (spin_some evs g) l.
Proof.
  unfold Lifecycle. intros [H|[H|(H & Ho & Hs)]]; auto.
  right; right. repeat split; auto. now apply spin_some_odom_rcvd.
Qed.

Lemma tracking_odom_rcvd (g : Globals) (l : Locals) :
  tracking g l = true -> odom_rcvd g = true.
Proof. unfold tracking. intros H. now apply andb_true_iff in H. Qed.

(** One iteration keeps the lifecycle invariant, publishes lifecycle values
    only and leaves no received list unprocessed. *)
Lemma lifecycle_step (g : Globals) (l l' : Locals) (out : list Msg)
    (brk : bool) :
  Lifecycle p g l ->
  loop_body PlanPath p g l = Ok (l', out, brk) ->
  Lifecycle p g l'
  /\ Forall (lifecycle_value p) (states_of out)
  /\ pending g l' = false.
Proof.
  intros Hinv H. pose proof (lifecycle_value_of g l Hinv) as Hv.
  iteration_cases H;
    rewrite ?states_of_cons, ?states_of_app, ?states_of_progress_report;
    cbn [states_of flat_map app];
    try pose proof (tracking_odom_rcvd _ _ Htr) as Hodom;
    (split; [|split]);
    try match goal with
      | |- context [if ?b then _ else _] => destruct b
      end.
  all: try (repeat apply Forall_cons; try apply Forall_nil;
            unfold lifecycle_value; auto; fail).
  all: try (unfold pending in *; cbn; rewrite ?andb_false_r; auto; fail).
  all: unfold Lifecycle in *; cbn; tauto.
Qed.

Lemma lifecycle_run (ins : list (list Event)) :
  forall (g : Globals) (l : Locals),
    Lifecycle p g l ->
    Forall (lifecycle_value p) (states_of (sent (fst (run PlanPath p ins g l)))).
Proof.
  induction ins as [|evs rest IH]; intros g l Hinv; cbn [run].
  - constructor.
  - destruct (loop_body PlanPath p g l) as [[[l' out] brk]|f] eqn:E;
      [|constructor].
    destruct (lifecycle_step g l l' out brk Hinv E) as (Hinv' & Hout & _).
    destruct brk.
    + cbn [fst]. rewrite sent_cons, states_of_app. cbn [tick_out sent flat_map].
      rewrite app_nil_r. exact Hout.
    + specialize (IH _ l' (lifecycle_spin_some g l' evs Hinv')).
      destruct (run PlanPath p rest (spin_some evs g) l') as [ts st].
      cbn [fst] in *. rewrite sent_cons, states_of_app. cbn [tick_out].
      apply Forall_app. now split.
Qed.

End Lifecycle.

(** ** Start-up *)

Lemma clamp_shutdown_behavior_range (b : Z) :
  1 <= clamp_shutdown_behavior b <= 3.
Proof.
  unfold clamp_shutdown_behavior.
  destruct (Z.ltb_spec 3 b); simpl; [lia|].
  destruct (Z.ltb_spec b 1); lia.
Qed.

Lemma clamp_shutdown_behavior_cases (b : Z) :
  (1 <= b <= 3 /\ clamp_shutdown_behavior b = b)
  \/ ((3 < b \/ b < 1) /\ clamp_shutdown_behavior b = 1).
Proof.
  unfold clamp_shutdown_behavior.
  destruct (Z.ltb_spec 3 b); simpl; [right; lia|].
  destruct (Z.ltb_spec b 1); [right|left]; lia.
Qed.

Lemma main_init_params (c : Config) p g l out0 :
  main_init c = (p, g, l, out0) ->
  shutdown_behavior p = clamp_shutdown_behavior (cfg_shutdown_behavior c)
  /\ goal_dist p = cfg_goal_dist c
  /\ valid_behavior p.
Proof.
  unfold main_init. intros H. injection H as <- _ _ _.
  cbn [shutdown_behavior goal_dist]. unfold valid_behavior.
  cbn [shutdown_behavior].
  repeat split; apply clamp_shutdown_behavior_range.
Qed.

Lemma main_init_lifecycle (c : Config) p g l out0 :
  main_init c = (p, g, l, out0) ->
  Lifecycle p g l
  /\ Forall (lifecycle_value p) (states_of out0)
  /\ shutdown_count l = 0
  /\ waypoints_change_once l = true
  /\ waypoints_rcvd g = false.
Proof.
  unfold main_init. intros H. injection H as <- <- <- <-.
  cbn [state_data shutdown_count waypoints_change_once waypoints_rcvd].
  repeat split.
  - unfold Lifecycle. cbn [state_data]. destruct (0 <? wrap32 _); auto.
  - rewrite !states_of_app.
    destruct (negb _), (_ || _), (0 <? wrap32 _); cbn;
      repeat apply Forall_cons; try apply Forall_nil;
      unfold lifecycle_value; auto.
Qed.

(** ** The published lifecycle state *)

(** C10. Every value the node publishes on [nature/state], at start-up or
    in any iteration of the loop, is -1, 0 or the shutdown behaviour as
    line 90 leaves it: the configured value when it is 1, 2 or 3, and 1
    when it is greater than 3 or less than 1. *)
Theorem published_state_is_a_lifecycle_value :
  forall PlanPath (c : Config) (ins : list (list Event)),
    let b := clamp_shutdown_behavior (cfg_shutdown_behavior c) in
    Forall (fun v => (v = -1 \/ v = 0 \/ v = b) /\ -1 <= v <= 3)
      (states_of (fst (main PlanPath c ins)
                  ++ sent (fst (snd (main PlanPath c ins)))))
    /\ 1 <= b <= 3
    /\ ((1 <= cfg_shutdown_behavior c <= 3 /\ b = cfg_shutdown_behavior c)
        \/ ((3 < cfg_shutdown_behavior c \/ cfg_shutdown_behavior c < 1)
            /\ b = 1)).
Proof.
  intros PlanPath c ins b.
  split; [|split;
           [apply clamp_shutdown_behavior_range
           | apply clamp_shutdown_behavior_cases]].
  unfold main.
  destruct (main_init c) as [[[p g] l] out0] eqn:E.
  destruct (main_init_params c p g l out0 E) as (Hb & _ & Hvalid).
  destruct (main_init_lifecycle c p g l out0 E) as (Hinv & Hout & _).
  cbn [fst snd]. rewrite states_of_app.
  pose proof (lifecycle_run PlanPath p ins g l Hinv) as Hrun.
  assert (Hall : Forall (lifecycle_value p)
                   (states_of out0
                    ++ states_of (sent (fst (run PlanPath p ins g l))))).
  { apply Forall_app. now split. }
  eapply Forall_impl; [|exact Hall].
  intros v Hv. unfold lifecycle_value in Hv. unfold valid_behavior in Hvalid.
  subst b. rewrite <- Hb. split; [exact Hv | lia].
Qed.

(** ** The waypoint tracker *)

Lemma dlt_irrefl (x : double) : dlt x x = false.
Proof.
  unfold dlt, SFltb.
  destruct x as [s|s| |s m e]; simpl; try (destruct s; reflexivity);
    try reflexivity.
  destruct s; rewrite Z.compare_refl, Pos.compare_cont_refl; reflexivity.
Qed.

Lemma last_index_spec (g : Globals) (l : Locals) :
  fits_int (current_waypoints g) ->
  in_range g l ->
  last_index g l = true
  <-> current_waypoint l = Z.of_nat (length (current_waypoints g)) - 1.
Proof.
  unfold in_range, last_index. intros Hfit Hin.
  rewrite (size_fits _ Hfit). unfold fits_int, INT_MAX in Hfit.
  rewrite !to_size_t_small by lia.
  apply Z.eqb_eq.
Qed.

Lemma compose_defined (g : Globals) (l : Locals) (path : list (float * float)) :
  fits_int (current_waypoints g) ->
  in_range g l ->
  exists ros_path,
    compose (current_waypoints g) (current_waypoint l) path = Ok ros_path.
Proof.
  intros Hfit Hin.
  destruct (Z.ltb_spec 1 (size path)).
  - eexists. now apply compose_long.
  - eexists. now apply compose_short.
Qed.

Section Tracker.

Variable PlanPath :
  OccupancyGrid -> OccupancyGrid -> float * float -> float * float ->
  list (float * float).

Variable p : Params.

Lemma loop_body_after_process (g : Globals) (l l1 : Locals)
    (out1 : list Msg) :
  process_new_waypoints g l = Ok (l1, out1) ->
  loop_body PlanPath p g l
  = ('(l2, out2, brk) <- plan_and_track PlanPath p g l1 ;;
     Ok (if brk then l2 else next_nl l2,
         PubState (state_data l) :: out1 ++ out2, brk)).
Proof. unfold loop_body. intros ->. reflexivity. Qed.

Lemma plan_and_track_arrived (g : Globals) (l : Locals) :
  tracking g l = true ->
  last_index g l = true ->
  within p (distance (goal l) (odom g)) || shutdown_condition l = true ->
  plan_and_track PlanPath p g l
  = Ok (requested p l,
        progress_report g l (to_ros_path (planned PlanPath g l))
        ++ [PubState (shutdown_behavior p)],
        10 <? wrap32 (shutdown_count l + 1)).
Proof.
  intros Htrack Hlast Hreach.
  rewrite (plan_and_track_run PlanPath p g l _ Htrack
             (compose_at_last g l _ Hlast)).
  unfold check_progression. unfold last_index in Hlast.
  rewrite Hlast, Hreach. reflexivity.
Qed.

(** An intermediate waypoint: the index moves by one when the waypoint is
    reached, and not at all otherwise. *)
Lemma plan_and_track_intermediate (g : Globals) (l : Locals) :
  tracking g l = true ->
  fits_int (current_waypoints g) ->
  in_range g l ->
  last_index g l = false ->
  exists ros_path,
    plan_and_track PlanPath p g l
    = if within p (distance (goal l) (odom g))
      then
        match nth_error (current_waypoints g)
                (Z.to_nat (current_waypoint l + 1)) with
        | Some wp =>
            Ok (active_at (current_waypoint l + 1) (goal_of wp) l,
                progress_report g l ros_path ++ [PubState 0], false)
        | None => Undefined (OutOfRange (current_waypoint l + 1)
                               (size (current_waypoints g)))
        end
      else Ok (active_at (current_waypoint l) (goal l) l,
               progress_report g l ros_path ++ [PubState 0], false).
Proof.
  intros Htrack Hfit Hin Hlast.
  destruct (compose_defined g l (planned PlanPath g l) Hfit Hin)
    as [ros_path Hcomp].
  exists ros_path.
  rewrite (plan_and_track_run PlanPath p g l _ Htrack Hcomp).
  unfold check_progression. unfold last_index in Hlast. rewrite Hlast.
  destruct (within p (distance (goal l) (odom g))); [|reflexivity].
  assert (Hnot : current_waypoint l
                 <> Z.of_nat (length (current_waypoints g)) - 1).
  { intros Heq. apply (last_index_spec g l Hfit Hin) in Heq.
    unfold last_index in Heq. congruence. }
  unfold in_range in Hin. pose proof Hfit as Hfit'.
  unfold fits_int, INT_MAX in Hfit'.
  rewrite wrap32_small by lia.
  destruct (at_index_in_range (current_waypoints g) (current_waypoint l + 1)
              Hfit) as (wp & Hnth & Hat); [lia|].
  rewrite Hat, Hnth. reflexivity.
Qed.

End Tracker.

(** C7. With tracking on and the current waypoint not the last one, an
    iteration in which the distance to the goal is strictly below the
    threshold moves the index forward by exactly one and sets the goal to
    the waypoint at the new index; when the distance is not below the
    threshold, in particular when it equals it, index and goal stay as they
    are. The index and goal meant are those in effect once a newly received
    list, if any, has been processed. *)
Theorem intermediate_waypoint_advances_by_exactly_one :
  forall PlanPath (p : Params) (g : Globals) (l l1 : Locals)
         (out1 : list Msg),
    process_new_waypoints g l = Ok (l1, out1) ->
    tracking g l1 = true ->
    fits_int (current_waypoints g) ->
    in_range g l1 ->
    last_index g l1 = false ->
    let d := distance (goal l1) (odom g) in
    exists l' out,
      loop_body PlanPath p g l = Ok (l', out, false)
      /\ state_data l' = 0
      /\ (within p d = true ->
          current_waypoint l' = current_waypoint l1 + 1
          /\ exists wp,
              nth_error (current_waypoints g)
                (Z.to_nat (current_waypoint l1 + 1)) = Some wp
              /\ goal l' = goal_of wp)
      /\ (within p d = false ->
          current_waypoint l' = current_waypoint l1 /\ goal l' = goal l1)
      /\ (d = to_double (goal_dist p) -> within p d = false).
Proof.
  intros PlanPath p g l l1 out1 Hproc Htrack Hfit Hin Hlast d.
  destruct (plan_and_track_intermediate PlanPath p g l1 Htrack Hfit Hin Hlast)
    as [ros_path Hpt].
  rewrite (loop_body_after_process PlanPath p g l l1 out1 Hproc), Hpt.
  fold d.
  assert (Hnext : exists wp,
             nth_error (current_waypoints g)
               (Z.to_nat (current_waypoint l1 + 1)) = Some wp).
  { assert (Hnot : current_waypoint l1
                   <> Z.of_nat (length (current_waypoints g)) - 1).
    { intros Heq. apply (last_index_spec g l1 Hfit Hin) in Heq. congruence. }
    unfold in_range in Hin.
    destruct (at_index_in_range (current_waypoints g)
                (current_waypoint l1 + 1) Hfit) as (wp & Hnth & _); [lia|].
    now exists wp. }
  destruct Hnext as [wp Hnth]. rewrite Hnth.
  assert (Heq : d = to_double (goal_dist p) -> within p d = false).
  { intros ->. apply dlt_irrefl. }
  destruct (within p d) eqn:Hw; cbn [bind];
    eexists; eexists; (split; [reflexivity|]);
    cbn [next_nl active_at state_data current_waypoint goal];
    repeat split; try discriminate; auto.
  - exists wp. now split.
Qed.

(** C8. With tracking on, the current waypoint the last one and the
    distance to the goal strictly below the threshold, the iteration
    publishes the configured shutdown behaviour as its last state and
    leaves index and goal untouched. As long as no new waypoint list is
    received, every later iteration does the same: the index never moves
    and the shutdown behaviour is published in each of them, until the loop
    is left. *)
Theorem last_waypoint_reached_requests_shutdown :
  forall PlanPath (p : Params) (g : Globals) (l l1 : Locals)
         (out1 : list Msg),
    process_new_waypoints g l = Ok (l1, out1) ->
    tracking g l1 = true ->
    last_index g l1 = true ->
    within p (distance (goal l1) (odom g)) = true ->
    (exists l' out brk,
        loop_body PlanPath p g l = Ok (l', out, brk)
        /\ halted_tick p l1 (mkTick g l' out))
    /\ (valid_behavior p ->
        forall ins : list (list Event),
          forallb no_waypoints ins = true ->
          Forall (halted_tick p l1) (fst (run PlanPath p ins g l))
          /\ forall f, snd (run PlanPath p ins g l) <> Faulted f).
Proof.
  intros PlanPath p g l l1 out1 Hproc Htrack Hlast Hnear.
  assert (Hreach : within p (distance (goal l1) (odom g))
                   || shutdown_condition l1 = true) by now rewrite Hnear.
  assert (Harr : Arrived p g l1).
  { repeat split; auto. eapply process_new_waypoints_done; eassumption. }
  assert (Hbody :
    loop_body PlanPath p g l
    = Ok (if 10 <? wrap32 (shutdown_count l1 + 1)
          then requested p l1 else next_nl (requested p l1),
          PubState (state_data l)
          :: out1 ++ progress_report g l1 (to_ros_path (planned PlanPath g l1))
                  ++ [PubState (shutdown_behavior p)],
          10 <? wrap32 (shutdown_count l1 + 1))).
  { rewrite (loop_body_after_process PlanPath p g l l1 out1 Hproc).
    rewrite (plan_and_track_arrived PlanPath p g l1 Htrack Hlast Hreach).
    reflexivity. }
  assert (Htick : forall b : bool,
    halted_tick p l1
      (mkTick g (if b then requested p l1 else next_nl (requested p l1))
         (PubState (state_data l)
          :: out1 ++ progress_report g l1 (to_ros_path (planned PlanPath g l1))
                  ++ [PubState (shutdown_behavior p)]))).
  { intros b. unfold halted_tick. cbn [tick_locals tick_out].
    repeat split; try (now destruct b).
    exists (state_data l :: states_of out1).
    rewrite states_of_cons, !states_of_app, states_of_progress_report.
    reflexivity. }
  split.
  - do 3 eexists. split; [exact Hbody | apply Htick].
  - intros Hvalid ins Hq. destruct ins as [|evs rest]; cbn [run].
    + split; [constructor | discriminate].
    + cbn [forallb] in Hq. apply andb_true_iff in Hq. destruct Hq as [Hevs Hrest].
      rewrite Hbody.
      destruct (10 <? wrap32 (shutdown_count l1 + 1)) eqn:Hb.
      * cbn [fst snd]. split; [|discriminate].
        constructor; [apply (Htick true) | constructor].
      * pose proof (arrived_run_ticks PlanPath p Hvalid rest _ _
                      (arrived_next p Hvalid g l1 evs Harr Hevs) Hrest)
          as [Hticks Hok].
        destruct (run PlanPath p rest (spin_some evs g)
                    (next_nl (requested p l1))) as [ts st].
        cbn [fst snd] in *. split; [|exact Hok].
        constructor; [apply (Htick false)|].
        eapply Forall_impl; [|exact Hticks]. apply halted_tick_next.
Qed.

(** ** Leaving the loop *)

Lemma count_requests_cons (p : Params) (t : Tick) (ts : list Tick) :
  count_requests p (t :: ts)
  = (if requests_shutdown p t then 1 else 0) + count_requests p ts.
Proof.
  unfold count_requests. cbn [filter].
  destruct (requests_shutdown p t); cbn [length]; lia.
Qed.

Section Debounce.

Variable PlanPath :
  OccupancyGrid -> OccupancyGrid -> float * float -> float * float ->
  list (float * float).

Variable p : Params.
Hypothesis Hvalid : valid_behavior p.

(** [shutdown_count] counts the iterations that requested the shutdown
    behaviour, and the loop is left by the one that makes it 11. *)
Lemma count_run (ins : list (list Event)) :
  forall (g : Globals) (l : Locals),
    Lifecycle p g l ->
    0 <= shutdown_count l <= 10 ->
    (snd (run PlanPath p ins g l) = Exited ->
     shutdown_count l + count_requests p (fst (run PlanPath p ins g l)) = 11
     /\ exists ts0 t before,
         fst (run PlanPath p ins g l) = ts0 ++ [t]
         /\ requests_shutdown p t = true
         /\ states_of (tick_out t) = before ++ [shutdown_behavior p])
    /\ (snd (run PlanPath p ins g l) <> Exited ->
        shutdown_count l + count_requests p (fst (run PlanPath p ins g l))
        <= 10).
Proof.
  induction ins as [|evs rest IH]; intros g l Hinv Hcount; cbn [run].
  - cbn [fst snd]. split; [discriminate|]. intros _.
    unfold count_requests. cbn. lia.
  - destruct (loop_body PlanPath p g l) as [[[l' out] brk]|f] eqn:E.
    2:{ cbn [fst snd]. split; [discriminate|]. intros _.
        unfold count_requests. cbn. lia. }
    destruct (lifecycle_step PlanPath p g l l' out brk Hinv E) as (Hinv' & _ & _).
    destruct (request_step PlanPath p Hvalid g l l' out brk Hinv E)
      as [(Hs & _ & _ & Hc & Hb & before & Hout)|(Hs & Hc & Hb)];
      subst brk.
    + rewrite wrap32_small in * by lia.
      destruct (Z.ltb_spec 10 (shutdown_count l + 1)) as [Hten|Hless].
      * cbn [fst snd]. split; [|congruence]. intros _.
        rewrite count_requests_cons. unfold requests_shutdown at 1.
        cbn [tick_locals]. rewrite Hs, Z.eqb_refl.
        unfold count_requests. cbn [filter length]. split; [lia|].
        exists [], (mkTick g l' out), before. cbn [tick_out tick_locals app].
        unfold requests_shutdown. cbn [tick_locals].
        rewrite Hs, Z.eqb_refl. auto.
      * specialize (IH _ l' (lifecycle_spin_some p g l' evs Hinv')).
        destruct (run PlanPath p rest (spin_some evs g) l') as [ts st].
        cbn [fst snd] in *. rewrite count_requests_cons.
        unfold requests_shutdown at 1 3. cbn [tick_locals].
        rewrite Hs, Z.eqb_refl.
        destruct IH as [IHe IHr]; [lia|]. split.
        -- intros Hst. destruct (IHe Hst) as (Hn & ts0 & t & bf & Hts & Ht).
           split; [lia|].
           exists (mkTick g l' out :: ts0), t, bf. rewrite Hts. auto.
        -- intros Hst. specialize (IHr Hst). lia.
    + specialize (IH _ l' (lifecycle_spin_some p g l' evs Hinv')).
      destruct (run PlanPath p rest (spin_some evs g) l') as [ts st].
      cbn [fst snd] in *. rewrite count_requests_cons.
      unfold requests_shutdown at 1 3. cbn [tick_locals].
      apply Z.eqb_neq in Hs. rewrite Hs.
      destruct IH as [IHe IHr]; [lia|]. split.
      * intros Hst. destruct (IHe Hst) as (Hn & ts0 & t & bf & Hts & Ht).
        split; [lia|].
        exists (mkTick g l' out :: ts0), t, bf. rewrite Hts. auto.
      * intros Hst. specialize (IHr Hst). lia.
Qed.

(** Once an iteration has ended with the shutdown behaviour requested and
    as long as no waypoint list is received, the node publishes nothing but
    the shutdown behaviour. *)
Lemma no_return_run (pre : list (list Event)) :
  forall (g0 : Globals) (l0 : Locals) (evs : list Event)
         (post : list (list Event)) (ts : list Tick) (g : Globals)
         (l : Locals),
    Lifecycle p g0 l0 ->
    run PlanPath p (pre ++ [evs]) g0 l0 = (ts, Running g l) ->
    state_data l = shutdown_behavior p ->
    no_waypoints evs = true ->
    forallb no_waypoints post = true ->
    exists ts' st,
      run PlanPath p (pre ++ evs :: post) g0 l0 = (ts ++ ts', st)
      /\ Forall (fun v => v = shutdown_behavior p) (states_of (sent ts'))
      /\ (forall f, st <> Faulted f).
Proof.
  induction pre as [|e pre IH];
    intros g0 l0 evs post ts g l Hinv Hrun Hstate Hevs Hpost;
    cbn [app run] in *.
  - destruct (loop_body PlanPath p g0 l0) as [[[l' out] brk]|f] eqn:E;
      [|discriminate].
    destruct brk; [discriminate|].
    injection Hrun as <- <- <-.
    destruct (request_step PlanPath p Hvalid g0 l0 l' out false Hinv E)
      as [(_ & Harr & Hsc & _)|(Hs & _)]; [|contradiction].
    pose proof (arrived_spin_some p g0 l' evs Harr Hsc Hevs) as Harr'.
    pose proof (arrived_run_states PlanPath p Hvalid post _ _ Harr' Hstate Hpost)
      as Hstates.
    pose proof (arrived_run_ticks PlanPath p Hvalid post _ _ Harr' Hpost)
      as [_ Hok].
    destruct (run PlanPath p post (spin_some evs g0) l') as [ts' st].
    exists ts', st. cbn [fst snd] in *. auto.
  - destruct (loop_body PlanPath p g0 l0) as [[[l' out] brk]|f] eqn:E;
      [|discriminate].
    destruct brk; [discriminate|].
    destruct (lifecycle_step PlanPath p g0 l0 l' out false Hinv E)
      as (Hinv' & _ & _).
    destruct (run PlanPath p (pre ++ [evs]) (spin_some e g0) l')
      as [ts1 st1] eqn:Erun.
    injection Hrun as <- ->.
    destruct (IH _ _ evs post ts1 g l
                (lifecycle_spin_some p g0 l' e Hinv') Erun Hstate Hevs Hpost)
      as (ts' & st & Hrun' & Hstates & Hok).
    exists ts', st. rewrite Hrun'. auto.
Qed.

End Debounce.

Lemma sent_snoc (ts : list Tick) (t : Tick) :
  sent (ts ++ [t]) = sent ts ++ tick_out t.
Proof.
  unfold sent. rewrite flat_map_app. cbn [flat_map]. now rewrite app_nil_r.
Qed.

Lemma leading_all (f : Tick -> bool) (ts : list Tick) :
  Forall (fun t => f t = true) ts -> leading f ts = length ts.
Proof.
  induction 1 as [|t ts Ht _ IH]; cbn [leading length]; [reflexivity|].
  now rewrite Ht, IH.
Qed.

Lemma halted_ticks_end (p : Params) (l : Locals) (ts : list Tick) :
  ts <> [] ->
  Forall (halted_tick p l) ts ->
  consecutive_requests p ts = length ts
  /\ exists before, states_of (sent ts) = before ++ [shutdown_behavior p].
Proof.
  intros Hne Hall. split.
  - unfold consecutive_requests. rewrite leading_all, length_rev; [reflexivity|].
    apply Forall_rev. eapply Forall_impl; [|exact Hall].
    intros t (_ & _ & Hs & _). unfold requests_shutdown. now apply Z.eqb_eq.
  - destruct (exists_last Hne) as (ts0 & t & ->).
    apply Forall_app in Hall. destruct Hall as [_ Ht].
    inversion Ht as [|? ? (_ & _ & _ & bf & Hout) _]; subst.
    exists (states_of (sent ts0) ++ bf).
    rewrite sent_snoc, states_of_app, Hout. now rewrite app_assoc.
Qed.

(** C3, as the code has it. The loop is left in the iteration that requests
    the shutdown behaviour for the 11th time since the node started, and in
    no other: a run that left the loop holds exactly 11 requesting
    iterations, the last of them being its last iteration, and a run that
    did not holds at most 10. The count is never reset, so the 11 requests
    are consecutive when no waypoint list arrives in between: from a state
    that tracks the last waypoint within the threshold, with no request
    counted yet, the loop runs exactly 11 iterations, each requesting the
    shutdown behaviour, and the last state published is the shutdown
    behaviour (2 when it is configured as 2). *)
Theorem loop_exits_on_eleventh_shutdown_request :
  (forall PlanPath (c : Config) (ins : list (list Event)),
      let p := init_params c in
      let ts := fst (snd (main PlanPath c ins)) in
      let st := snd (snd (main PlanPath c ins)) in
      (st = Exited ->
       count_requests p ts = 11
       /\ exists ts0 t before,
           ts = ts0 ++ [t]
           /\ requests_shutdown p t = true
           /\ states_of (tick_out t) = before ++ [shutdown_behavior p])
      /\ (st <> Exited -> count_requests p ts <= 10))
  /\ (forall PlanPath (p : Params) (g : Globals) (l : Locals)
             (ins : list (list Event)),
      valid_behavior p ->
      tracking g l = true ->
      pending g l = false ->
      last_index g l = true ->
      within p (distance (goal l) (odom g)) = true ->
      shutdown_count l = 0 ->
      (11 <= length ins)%nat ->
      forallb no_waypoints ins = true ->
      let ts := fst (run PlanPath p ins g l) in
      snd (run PlanPath p ins g l) = Exited
      /\ length ts = 11%nat
      /\ Forall (halted_tick p l) ts
      /\ consecutive_requests p ts = 11%nat
      /\ exists before,
          states_of (sent ts) = before ++ [shutdown_behavior p]).
Proof.
  split.
  - intros PlanPath c ins p ts st. subst p ts st.
    unfold main, init_params.
    destruct (main_init c) as [[[p g] l] out0] eqn:E. cbn [fst snd].
    destruct (main_init_params c p g l out0 E) as (_ & _ & Hvalid).
    destruct (main_init_lifecycle c p g l out0 E) as (Hinv & _ & Hcount & _).
    pose proof (count_run PlanPath p Hvalid ins g l Hinv) as H.
    rewrite Hcount in H. apply H. lia.
  - intros PlanPath p g l ins Hvalid Htrack Hpend Hlast Hnear Hcount Hlen Hq ts.
    assert (Harr : Arrived p g l).
    { repeat split; auto. now rewrite Hnear. }
    destruct (arrived_run_exit PlanPath p Hvalid ins 11 g l Harr Hq)
      as (Hn & Hexit & _); [lia | rewrite Hcount; reflexivity |].
    destruct (arrived_run_ticks PlanPath p Hvalid ins g l Harr Hq)
      as [Hticks _].
    fold ts in Hn, Hticks.
    assert (Hts : length ts = 11%nat) by lia.
    assert (Hne : ts <> []) by (intros ->; discriminate).
    destruct (halted_ticks_end p l ts Hne Hticks) as [Hcons Hend].
    repeat split; auto. now rewrite Hcons.
Qed.

Lemma loop_exits_on_eleventh_shutdown_request_witness :
  snd (run Examples.line_planner (Examples.params 2) (Examples.idle 11)
         Examples.at_last_waypoint (Examples.tracking_waypoint 2 20 0)) = Exited
  /\ exists before,
      states_of
        (sent (fst (run Examples.line_planner (Examples.params 2)
                      (Examples.idle 11) Examples.at_last_waypoint
                      (Examples.tracking_waypoint 2 20 0))))
      = before ++ [2].
Proof.
  destruct (proj2 loop_exits_on_eleventh_shutdown_request
              Examples.line_planner (Examples.params 2)
              Examples.at_last_waypoint
              (Examples.tracking_waypoint 2 20 0) (Examples.idle 11))
    as (Hexit & _ & _ & _ & Hlast).
  - unfold valid_behavior. simpl. lia.
  - vm_compute. reflexivity.
  - vm_compute. reflexivity.
  - vm_compute. reflexivity.
  - vm_compute. reflexivity.
  - reflexivity.
  - simpl. lia.
  - vm_compute. reflexivity.
  - split; [exact Hexit | exact Hlast].
Defined.

(** C3 as stated fails: here the loop is left although only the last six
    iterations requested the shutdown behaviour in a row. *)
Lemma exit_after_six_consecutive_requests :
  ~ (forall PlanPath (c : Config) (ins : list (list Event)),
        snd (snd (main PlanPath c ins)) = Exited ->
        (10 < consecutive_requests (init_params c)
                (fst (snd (main PlanPath c ins))))%nat).
Proof.
  intros H.
  specialize (H Examples.line_planner (Examples.cfg_origin 2)
                Examples.interrupted_shutdown).
  assert (E1 : snd (snd (main Examples.line_planner (Examples.cfg_origin 2)
                           Examples.interrupted_shutdown)) = Exited)
    by (vm_compute; reflexivity).
  assert (E2 : consecutive_requests (init_params (Examples.cfg_origin 2))
                 (fst (snd (main Examples.line_planner (Examples.cfg_origin 2)
                              Examples.interrupted_shutdown))) = 6%nat)
    by (vm_compute; reflexivity).
  specialize (H E1). rewrite E2 in H. lia.
Qed.

(** ** No way back from a shutdown state without a new list *)

Lemma lifecycle_run_running PlanPath (p : Params) (ins : list (list Event)) :
  forall (g0 : Globals) (l0 : Locals) (ts : list Tick) (g : Globals)
         (l : Locals),
    Lifecycle p g0 l0 ->
    run PlanPath p ins g0 l0 = (ts, Running g l) ->
    Lifecycle p g l.
Proof.
  induction ins as [|evs rest IH]; intros g0 l0 ts g l Hinv Hrun;
    cbn [run] in Hrun.
  - now injection Hrun as _ <- <-.
  - destruct (loop_body PlanPath p g0 l0) as [[[l' out] brk]|f] eqn:E;
      [|discriminate].
    destruct brk; [discriminate|].
    destruct (lifecycle_step PlanPath p g0 l0 l' out false Hinv E)
      as (Hinv' & _ & _).
    destruct (run PlanPath p rest (spin_some evs g0) l') as [ts1 st1] eqn:Erun.
    injection Hrun as _ ->.
    exact (IH _ _ ts1 g l (lifecycle_spin_some p g0 l' evs Hinv') Erun).
Qed.

(** C6, as the code has it. Once an iteration has ended in a shutdown state
    (1, 2 or 3) and as long as no waypoint list is received after it, every
    state published from then on is that same shutdown state; 0 is never
    published again, and no iteration goes wrong. *)
Theorem no_return_to_active_without_new_waypoints :
  forall PlanPath (c : Config) (pre : list (list Event)) (evs : list Event)
         (post : list (list Event)) (out0 : list Msg) (ts : list Tick)
         (g : Globals) (l : Locals),
    main PlanPath c (pre ++ [evs]) = (out0, (ts, Running g l)) ->
    1 <= state_data l <= 3 ->
    no_waypoints evs = true ->
    forallb no_waypoints post = true ->
    exists ts' st,
      main PlanPath c (pre ++ evs :: post) = (out0, (ts ++ ts', st))
      /\ Forall (fun v => v = state_data l) (states_of (sent ts'))
      /\ ~ In 0 (states_of (sent ts'))
      /\ forall f, st <> Faulted f.
Proof.
  intros PlanPath c pre evs post out0 ts g l Hmain Hstate Hevs Hpost.
  unfold main in *.
  destruct (main_init c) as [[[p g0] l0] out0'] eqn:E.
  injection Hmain as <- Hrun.
  destruct (main_init_params c p g0 l0 out0' E) as (_ & _ & Hvalid).
  destruct (main_init_lifecycle c p g0 l0 out0' E) as (Hinv & _).
  assert (Hs : state_data l = shutdown_behavior p).
  { pose proof (lifecycle_run_running PlanPath p _ g0 l0 ts g l Hinv Hrun)
      as Hl.
    apply lifecycle_value_of in Hl. unfold lifecycle_value in Hl. lia. }
  destruct (no_return_run PlanPath p Hvalid pre g0 l0 evs post ts g l
              Hinv Hrun Hs Hevs Hpost) as (ts' & st & Hrun' & Hall & Hok).
  exists ts', st. rewrite Hrun', Hs. repeat split; auto.
  intros Hin. rewrite Forall_forall in Hall. specialize (Hall 0 Hin). lia.
Qed.

Lemma no_return_to_active_without_new_waypoints_witness :
  ~ In 0
      (states_of
         (sent (skipn 2
                  (fst (snd (main Examples.line_planner (Examples.cfg_origin 1)
                               ([[EvOdometry (Examples.at_xy 0 0)]]
                                ++ [] :: Examples.idle 3))))))).
Proof.
  edestruct (no_return_to_active_without_new_waypoints
               Examples.line_planner (Examples.cfg_origin 1)
               [[EvOdometry (Examples.at_xy 0 0)]] [] (Examples.idle 3))
    as (ts' & st & Hrun & _ & Hno & _).
  - vm_compute. reflexivity.
  - simpl. lia.
  - reflexivity.
  - reflexivity.
  - rewrite Hrun. exact Hno.
Defined.

(** C6 as stated fails: the node has published shutdown state 1 when a
    waypoint list arrives, and it publishes 0 again. *)
Lemma shutdown_then_active_again :
  ~ (forall PlanPath (c : Config) (ins : list (list Event))
            (before : list Z) (v : Z) (after : list Z),
        states_of (fst (main PlanPath c ins)
                   ++ sent (fst (snd (main PlanPath c ins))))
        = before ++ v :: after ->
        1 <= v <= 3 ->
        ~ In 0 after).
Proof.
  intros H.
  apply (H Examples.line_planner (Examples.cfg_origin 1)
           Examples.shutdown_then_waypoints [0; 0; 0] 1 [1; 0; 0]).
  - vm_compute. reflexivity.
  - lia.
  - simpl. auto.
Qed.

(** ** The range of the waypoint index *)

Lemma spin_some_app (a b : list Event) (g : Globals) :
  spin_some (a ++ b) g = spin_some b (spin_some a g).
Proof. unfold spin_some. apply fold_left_app. Qed.

(** After a spin that delivers waypoint lists, the last of them is the
    current list. *)
Lemma spin_some_waypoints (evs : list Event) :
  forall g : Globals,
    no_waypoints evs = false ->
    waypoints_rcvd (spin_some evs g) = true
    /\ In (EvWaypoints (current_waypoints (spin_some evs g))) evs.
Proof.
  induction evs as [|e evs IH] using rev_ind; intros g H; [discriminate|].
  unfold no_waypoints in *. rewrite forallb_app in H. cbn [forallb] in H.
  rewrite andb_true_r in H. rewrite spin_some_app.
  destruct e as [o|m|m|w]; cbn [is_waypoints negb] in H;
    rewrite ?andb_true_r, ?andb_false_r in H.
  1-3: destruct (IH g H) as [Hr Hin]; cbn; split;
         [exact Hr | apply in_or_app; left; exact Hin].
  cbn. split; [reflexivity|]. apply in_or_app. right. now left.
Qed.

Lemma replacements_cons (evs : list Event) (ins : list (list Event)) :
  replacements (evs :: ins)
  = ((if no_waypoints evs then 0 else 1) + replacements ins)%nat.
Proof.
  unfold replacements. cbn [filter].
  destruct (no_waypoints evs); reflexivity.
Qed.

Lemma replacements_none (ins : list (list Event)) :
  replacements ins = 0%nat -> forallb no_waypoints ins = true.
Proof.
  induction ins as [|evs ins IH]; [reflexivity|].
  rewrite replacements_cons. cbn [forallb].
  destruct (no_waypoints evs); [|discriminate].
  intros H. now apply IH.
Qed.

Lemma lists_fit_cons (evs : list Event) (ins : list (list Event)) :
  lists_fit (evs :: ins) ->
  lists_fit ins /\ forall w, In (EvWaypoints w) evs -> fits_int w.
Proof.
  unfold lists_fit. cbn [forallb]. intros H.
  apply andb_true_iff in H. destruct H as [Hevs Hins].
  split; [exact Hins|]. intros w Hin.
  rewrite forallb_forall in Hevs. specialize (Hevs _ Hin).
  unfold fits_int. cbn in Hevs. now apply Z.leb_le.
Qed.

Lemma wrap32_range (z : Z) : - 2 ^ 31 <= wrap32 z < 2 ^ 31.
Proof.
  unfold wrap32.
  pose proof (Z.mod_pos_bound (z + 2 ^ 31) (2 ^ 32) ltac:(lia)). lia.
Qed.

Lemma size_nonneg {A : Type} (v : list A) : 0 <= size v.
Proof.
  unfold size, to_size_t.
  pose proof (Z.mod_pos_bound (Z.of_nat (length v)) (2 ^ 64) ltac:(lia)). lia.
Qed.

Lemma size_nil_iff {A : Type} (v : list A) : size v <> 0 -> v <> [].
Proof. intros H ->. now apply H. Qed.

(** The list loaded from the configuration fits an [int]; when there is
    one, the index 0 is inside it, and otherwise the node is in start-up. *)
Lemma main_init_settled (c : Config) p g l out0 :
  main_init c = (p, g, l, out0) ->
  fits_int (current_waypoints g)
  /\ settled g l
  /\ current_waypoint l = 0.
Proof.
  unfold main_init. intros H. injection H as _ <- <- _.
  cbn [current_waypoints state_data current_waypoint].
  unfold settled, in_range, fits_int.
  cbn [current_waypoints state_data current_waypoint].
  set (num := wrap32 (Z.min (size (waypoints_x_list c))
                        (size (waypoints_y_list c)))).
  pose proof (wrap32_range (Z.min (size (waypoints_x_list c))
                              (size (waypoints_y_list c)))) as Hnum.
  fold num in Hnum.
  destruct (Z.ltb_spec 0 num) as [Hpos|Hneg].
  - rewrite length_map, length_firstn. unfold INT_MAX.
    split; [lia|]. split; [|reflexivity]. right.
    assert (Hx : waypoints_x_list c <> []).
    { apply size_nil_iff. intros E. subst num. rewrite E in Hpos.
      pose proof (size_nonneg (waypoints_y_list c)).
      rewrite Z.min_l in Hpos by lia. cbn in Hpos. lia. }
    assert (Hy : waypoints_y_list c <> []).
    { apply size_nil_iff. intros E. subst num. rewrite E in Hpos.
      pose proof (size_nonneg (waypoints_x_list c)).
      rewrite Z.min_r in Hpos by lia. cbn in Hpos. lia. }
    destruct (waypoints_x_list c) as [|x xs]; [congruence|].
    destruct (waypoints_y_list c) as [|y ys]; [congruence|].
    cbn [combine length]. lia.
  - cbn [length]. unfold INT_MAX. split; [lia|]. split; [|reflexivity].
    left. now split.
Qed.

Lemma tracking_not_startup (g : Globals) (l : Locals) :
  tracking g l = true -> state_data l <> -1.
Proof.
  unfold tracking. intros H. apply andb_true_iff in H.
  destruct H as [_ H]. now apply negb_true_iff, Z.eqb_neq in H.
Qed.

Lemma settled_tracking (g : Globals) (l : Locals) :
  settled g l -> tracking g l = true -> in_range g l.
Proof.
  intros [[_ Hs]|Hin] Htr; [|exact Hin].
  now apply tracking_not_startup in Htr.
Qed.

Lemma advance_in_range (g : Globals) (l : Locals) (nxt : PoseStamped) :
  fits_int (current_waypoints g) ->
  in_range g l ->
  at_index (current_waypoints g) (wrap32 (current_waypoint l + 1)) = Ok nxt ->
  wrap32 (current_waypoint l + 1) = current_waypoint l + 1
  /\ current_waypoint l + 1 < Z.of_nat (length (current_waypoints g)).
Proof.
  unfold fits_int, INT_MAX, in_range. intros Hfit Hin Hat.
  rewrite wrap32_small in * by lia. split; [reflexivity|].
  apply at_index_Ok in Hat.
  rewrite to_size_t_small in Hat by lia.
  assert (Hlt : (Z.to_nat (current_waypoint l + 1)
                 < length (current_waypoints g))%nat)
    by (apply nth_error_Some; congruence).
  lia.
Qed.

Section IndexRange.

Variable PlanPath :
  OccupancyGrid -> OccupancyGrid -> float * float -> float * float ->
  list (float * float).

Variable p : Params.

(** One iteration: the index ends inside the list; it moved forward or not
    at all unless a received list was processed, which happens exactly when
    one is pending. *)
Lemma index_step (g : Globals) (l l' : Locals) (out : list Msg) (brk : bool) :
  fits_int (current_waypoints g) ->
  pending g l = true \/ settled g l ->
  loop_body PlanPath p g l = Ok (l', out, brk) ->
  settled g l'
  /\ pending g l' = false
  /\ (pending g l = false ->
      waypoints_change_once l' = waypoints_change_once l
      /\ current_waypoint l <= current_waypoint l')
  /\ (pending g l = true ->
      waypoints_change_once l = true /\ waypoints_change_once l' = false).
Proof.
  intros Hfit Hpre H.
  iteration_cases H.
  all: try (destruct Hpre as [Hpre|Hpre]; [congruence|]).
  all: try pose proof (settled_tracking _ _ Hpre Htr) as Hin.
  all: try (assert (Hin : in_range g (restarted wp l))
             by (unfold in_range; rewrite Hwps;
                 cbn [restarted current_waypoint length]; lia)).
  all: try (destruct (advance_in_range _ _ _ Hfit Hin Hat) as [Hw Hlt];
            rewrite Hw).
  all: try match goal with
         | |- context [if ?b then _ else _] => destruct b
         end.
  all: unfold settled, in_range, pending in *;
       cbn [next_nl requested active_at restarted state_data current_waypoint
            waypoints_change_once] in *;
       rewrite ?andb_false_r;
       repeat split; auto; try congruence; try lia.
  all: match goal with
       | H : _ && _ = true |- _ => apply andb_true_iff in H; tauto
       end.
Qed.

Lemma settled_index_ok (g : Globals) (l : Locals) (out : list Msg) :
  settled g l -> index_ok (mkTick g l out).
Proof.
  unfold settled, index_ok, in_range. cbn [tick_globals tick_locals].
  intros [[Hnil _]|Hin] HN; [|exact Hin].
  rewrite Hnil in HN. cbn in HN. lia.
Qed.

(** While no waypoint list is delivered. *)
Lemma settled_run_quiet (ins : list (list Event)) :
  forall (g : Globals) (l : Locals),
    fits_int (current_waypoints g) ->
    pending g l = true \/ settled g l ->
    forallb no_waypoints ins = true ->
    Forall index_ok (fst (run PlanPath p ins g l))
    /\ never_back (current_waypoint l) (waypoints_change_once l)
         (fst (run PlanPath p ins g l)).
Proof.
  induction ins as [|evs rest IH]; intros g l Hfit Hpre Hq; cbn [run].
  - cbn. split; [constructor | exact I].
  - cbn [forallb] in Hq. apply andb_true_iff in Hq. destruct Hq as [Hevs Hrest].
    destruct (loop_body PlanPath p g l) as [[[l' out] brk]|f] eqn:E;
      [|cbn; split; [constructor | exact I]].
    destruct (index_step g l l' out brk Hfit Hpre E)
      as (Hset & Hdone & Hkeep & Hreset).
    assert (Hhead : waypoints_change_once l' = waypoints_change_once l ->
                    current_waypoint l <= current_waypoint l').
    { destruct (pending g l) eqn:Hp.
      - destruct (Hreset eq_refl) as [H1 H2]. congruence.
      - intros _. now apply Hkeep. }
    destruct brk.
    + cbn [fst never_back tick_locals]. split.
      * constructor; [now apply settled_index_ok | constructor].
      * split; [exact Hhead | exact I].
    + destruct (spin_some_quiet evs g Hevs) as [Hw Hr].
      destruct (IH (spin_some evs g) l') as [IHok IHback]; auto.
      * now rewrite Hw.
      * right. unfold settled, in_range in *. now rewrite Hw.
      * destruct (run PlanPath p rest (spin_some evs g) l') as [ts st].
        cbn [fst never_back tick_locals] in *. split.
        -- constructor; [now apply settled_index_ok | exact IHok].
        -- split; [exact Hhead | exact IHback].
Qed.

(** From the start of the loop, with lists delivered in one spin at most. *)
Lemma settled_run (ins : list (list Event)) :
  forall (g : Globals) (l : Locals),
    fits_int (current_waypoints g) ->
    waypoints_rcvd g = false ->
    waypoints_change_once l = true ->
    settled g l ->
    (replacements ins <= 1)%nat ->
    lists_fit ins ->
    Forall index_ok (fst (run PlanPath p ins g l))
    /\ never_back (current_waypoint l) (waypoints_change_once l)
         (fst (run PlanPath p ins g l)).
Proof.
  induction ins as [|evs rest IH];
    intros g l Hfit Hrcvd Honce Hset Hone Hlists; cbn [run].
  - cbn. split; [constructor | exact I].
  - destruct (loop_body PlanPath p g l) as [[[l' out] brk]|f] eqn:E;
      [|cbn; split; [constructor | exact I]].
    assert (Hp : pending g l = false) by (unfold pending; now rewrite Hrcvd).
    destruct (index_step g l l' out brk Hfit (or_intror Hset) E)
      as (Hset' & _ & Hkeep & _).
    destruct (Hkeep Hp) as [Honce' Hle].
    destruct (lists_fit_cons _ _ Hlists) as [Hlists' Hfits].
    rewrite replacements_cons in Hone.
    destruct brk.
    + cbn [fst never_back tick_locals]. split.
      * constructor; [now apply settled_index_ok | constructor].
      * split; [intros _; exact Hle | exact I].
    + assert (Hnext :
        Forall index_ok (fst (run PlanPath p rest (spin_some evs g) l'))
        /\ never_back (current_waypoint l') (waypoints_change_once l')
             (fst (run PlanPath p rest (spin_some evs g) l'))).
      { destruct (no_waypoints evs) eqn:Hevs.
        - destruct (spin_some_quiet evs g Hevs) as [Hw Hr].
          apply IH;
            [ rewrite Hw; exact Hfit
            | congruence
            | congruence
            | unfold settled, in_range in *; rewrite Hw; exact Hset'
            | lia
            | exact Hlists' ].
        - destruct (spin_some_waypoints evs g Hevs) as [Hr Hin].
          apply settled_run_quiet;
            [ apply Hfits; exact Hin
            | left; unfold pending; rewrite Hr; cbn; congruence
            | apply replacements_none; lia ]. }
      destruct Hnext as [IHok IHback].
      destruct (run PlanPath p rest (spin_some evs g) l') as [ts st].
      cbn [fst never_back tick_locals] in *. split.
      * constructor; [now apply settled_index_ok | exact IHok].
      * split; [intros _; exact Hle | exact IHback].
Qed.

End IndexRange.

Lemma never_back_adjacent (a : list Tick) :
  forall (cw : Z) (once : bool) (t1 t2 : Tick) (b : list Tick),
    never_back cw once (a ++ t1 :: t2 :: b) ->
    waypoints_change_once (tick_locals t2)
    = waypoints_change_once (tick_locals t1) ->
    current_waypoint (tick_locals t1) <= current_waypoint (tick_locals t2).
Proof.
  induction a as [|t a IH]; intros cw once t1 t2 b H Hsame; cbn in H.
  - destruct H as (_ & H & _). now apply H.
  - destruct H as (_ & H). now apply (IH _ _ _ _ _ H).
Qed.

(** Where the range of the index does hold. In every run in which waypoint
    lists are delivered in at most one spin of the loop (the list the node
    then processes is the one that stays in effect), each of them with at
    most [INT_MAX] poses, every iteration ends with the index inside the
    list it ran with, 0 <= index < N, whenever that list has N >= 1
    elements. The index starts at 0 and from one iteration to the next it
    never decreases, except in the iteration that processes the received
    list and restarts at 0. *)
Theorem index_in_range_and_monotone :
  forall PlanPath (c : Config) (ins : list (list Event)),
    (replacements ins <= 1)%nat ->
    lists_fit ins ->
    let ts := fst (snd (main PlanPath c ins)) in
    Forall index_ok ts
    /\ (forall t b, ts = t :: b ->
        waypoints_change_once (tick_locals t) = true ->
        0 <= current_waypoint (tick_locals t))
    /\ (forall a t1 t2 b,
        ts = a ++ t1 :: t2 :: b ->
        waypoints_change_once (tick_locals t2)
        = waypoints_change_once (tick_locals t1) ->
        current_waypoint (tick_locals t1) <= current_waypoint (tick_locals t2)).
Proof.
  intros PlanPath c ins Hone Hlists ts. subst ts. unfold main.
  destruct (main_init c) as [[[p g] l] out0] eqn:E. cbn [fst snd].
  destruct (main_init_settled c p g l out0 E) as (Hfit & Hset & Hzero).
  destruct (main_init_lifecycle c p g l out0 E) as (_ & _ & _ & Honce & Hrcvd).
  destruct (settled_run PlanPath p ins g l Hfit Hrcvd Honce Hset Hone Hlists)
    as [Hok Hback].
  rewrite Hzero, Honce in Hback.
  split; [exact Hok|]. split.
  - intros t b Hts Ht. rewrite Hts in Hback. cbn in Hback.
    destruct Hback as [H _]. now apply H.
  - intros a t1 t2 b Hts Hsame. rewrite Hts in Hback.
    now apply (never_back_adjacent a 0 true t1 t2 b).
Qed.

Lemma index_in_range_and_monotone_witness :
  Forall index_ok
    (fst (snd (main Examples.line_planner (Examples.cfg_empty 1)
                 [[EvOdometry (Examples.at_xy 0 0);
                   EvWaypoints Examples.three_waypoints]; []; []]))).
Proof.
  refine (proj1 (index_in_range_and_monotone Examples.line_planner
                   (Examples.cfg_empty 1)
                   [[EvOdometry (Examples.at_xy 0 0);
                     EvWaypoints Examples.three_waypoints]; []; []] _ _)).
  - vm_compute. lia.
  - reflexivity.
Defined.

(** The range does not hold in every run: after a first list of three
    waypoints has been processed and the index has moved to 1, a second
    list of one waypoint arrives; the next iteration runs with N = 1 and
    index 1. *)
Lemma index_beyond_second_list :
  ~ (forall PlanPath (c : Config) (ins : list (list Event)),
        Forall index_ok (fst (snd (main PlanPath c ins)))).
Proof.
  intros H.
  specialize (H Examples.line_planner (Examples.cfg_empty 1)
                Examples.two_lists).
  assert (E : map (fun t =>
                     (Z.of_nat (length (current_waypoints (tick_globals t))),
                      current_waypoint (tick_locals t)))
                (fst (snd (main Examples.line_planner (Examples.cfg_empty 1)
                             Examples.two_lists)))
              = [(0, 0); (3, 1); (1, 1)])
    by (vm_compute; reflexivity).
  assert (H' : Forall (fun nc => 1 <= fst nc -> 0 <= snd nc < fst nc)
                 [(0, 0); (3, 1); (1, 1)]).
  { rewrite <- E. apply Forall_map. exact H. }
  inversion H' as [|? ? _ H1]; subst.
  inversion H1 as [|? ? _ H2]; subst.
  inversion H2 as [|? ? H3 _]; subst.
  cbn in H3. lia.
Qed.

(** C5 at its failing input. [WaypointCallback] stores every list it
    receives, but the index is reset for the first one only. The
    configuration lists no waypoint; a list of three waypoints is received
    and the index moves to 1; a second list of one waypoint is received.
    The next iteration runs with N = 1 and index 1, outside the list, and
    when the vehicle reaches the goal kept from the first list the node
    increments the index to 2 and reads [poses[2]] of the one-element
    vector (line 231). *)
Theorem stale_index_after_second_list :
  map (fun t =>
         (Z.of_nat (length (current_waypoints (tick_globals t))),
          current_waypoint (tick_locals t)))
    (fst (snd (main Examples.line_planner (Examples.cfg_empty 1)
                 Examples.stale_index_then_pose)))
  = [(0, 0); (3, 1); (1, 1)]
  /\ snd (snd (main Examples.line_planner (Examples.cfg_empty 1)
                 Examples.stale_index_then_pose))
     = Faulted (OutOfRange 2 1)
  /\ ~ Forall index_ok
        (fst (snd (main Examples.line_planner (Examples.cfg_empty 1)
                     Examples.stale_index_then_pose)))
  /\ lists_fit Examples.stale_index_then_pose.
Proof.
  assert (E : map (fun t =>
                     (Z.of_nat (length (current_waypoints (tick_globals t))),
                      current_waypoint (tick_locals t)))
                (fst (snd (main Examples.line_planner (Examples.cfg_empty 1)
                             Examples.stale_index_then_pose)))
              = [(0, 0); (3, 1); (1, 1)])
    by (vm_compute; reflexivity).
  split; [exact E|]. split; [vm_compute; reflexivity|].
  split; [|reflexivity].
  intros H.
  assert (H' : Forall (fun nc => 1 <= fst nc -> 0 <= snd nc < fst nc)
                 [(0, 0); (3, 1); (1, 1)]).
  { rewrite <- E. apply Forall_map. exact H. }
  inversion H' as [|? ? _ H1]; subst.
  inversion H1 as [|? ? _ H2]; subst.
  inversion H2 as [|? ? H3 _]; subst.
  cbn in H3. lia.
Qed.

(** ** Witnesses of the tracker theorems *)

Lemma intermediate_waypoint_advances_witness :
  exists l' out,
    loop_body Examples.line_planner (Examples.params 1) Examples.at_origin
      (Examples.tracking_waypoint 0 0 0) = Ok (l', out, false)
    /\ current_waypoint l' = 1
    /\ goal l' = Examples.row 10 0.
Proof.
  destruct (intermediate_waypoint_advances_by_exactly_one
              Examples.line_planner (Examples.params 1) Examples.at_origin
              (Examples.tracking_waypoint 0 0 0)
              (Examples.tracking_waypoint 0 0 0) [])
    as (l' & out & Hbody & _ & Hadv & _).
  - reflexivity.
  - reflexivity.
  - unfold fits_int, INT_MAX. simpl. lia.
  - unfold in_range. simpl. lia.
  - vm_compute. reflexivity.
  - exists l', out. split; [exact Hbody|].
    destruct Hadv as (Hcw & wp & Hnth & Hgoal); [vm_compute; reflexivity|].
    split; [exact Hcw|].
    injection Hnth as <-. rewrite Hgoal. vm_compute. reflexivity.
Defined.

Lemma last_waypoint_reached_witness :
  exists l' out brk,
    loop_body Examples.line_planner (Examples.params 3)
      Examples.at_last_waypoint (Examples.tracking_waypoint 2 20 0)
    = Ok (l', out, brk)
    /\ current_waypoint l' = 2
    /\ state_data l' = 3.
Proof.
  destruct (proj1 (last_waypoint_reached_requests_shutdown
                     Examples.line_planner (Examples.params 3)
                     Examples.at_last_waypoint
                     (Examples.tracking_waypoint 2 20 0)
                     (Examples.tracking_waypoint 2 20 0) []
                     eq_refl eq_refl eq_refl eq_refl))
    as (l' & out & brk & Hbody & Hcw & _ & Hstate & _).
  exists l', out, brk. split; [exact Hbody|]. split; [exact Hcw | exact Hstate].
Defined.

(** ** A received waypoint list *)

Lemma spin_some_last_waypoints (evs1 evs2 : list Event) (w : Path)
    (g : Globals) :
  no_waypoints evs2 = true ->
  current_waypoints (spin_some (evs1 ++ EvWaypoints w :: evs2) g) = w
  /\ waypoints_rcvd (spin_some (evs1 ++ EvWaypoints w :: evs2) g) = true.
Proof.
  intros Hq. rewrite spin_some_app.
  change (spin_some (EvWaypoints w :: evs2) (spin_some evs1 g))
    with (spin_some evs2 (WaypointCallback w (spin_some evs1 g))).
  destruct (spin_some_quiet evs2 (WaypointCallback w (spin_some evs1 g)) Hq)
    as [Hw Hr].
  rewrite Hw, Hr. split; reflexivity.
Qed.

Lemma in_progress_report (g : Globals) (l : Locals) (ros_path : Path) :
  In (PubCurrentWaypoint (current_waypoint l)) (progress_report g l ros_path).
Proof. unfold progress_report. cbn. auto. Qed.

Section Restart.

Variable PlanPath :
  OccupancyGrid -> OccupancyGrid -> float * float -> float * float ->
  list (float * float).

Variable p : Params.

Lemma plan_and_track_skip (g : Globals) (l : Locals) :
  tracking g l = false -> plan_and_track PlanPath p g l = Ok (l, [], false).
Proof. unfold plan_and_track, tracking. now intros ->. Qed.

Lemma plan_and_track_waiting (g : Globals) (l : Locals) :
  tracking g l = true ->
  last_index g l = true ->
  within p (distance (goal l) (odom g)) || shutdown_condition l = false ->
  plan_and_track PlanPath p g l
  = Ok (l, progress_report g l (to_ros_path (planned PlanPath g l)) ++ [],
        false).
Proof.
  intros Htrack Hlast Hfar.
  rewrite (plan_and_track_run PlanPath p g l _ Htrack
             (compose_at_last g l _ Hlast)).
  unfold check_progression. unfold last_index in Hlast.
  rewrite Hlast, Hfar. reflexivity.
Qed.

(** The iteration that processes a received list [wp :: rest]. *)
Lemma restart_step (g : Globals) (l : Locals) (wp : PoseStamped)
    (rest : Path) :
  pending g l = true ->
  current_waypoints g = wp :: rest ->
  fits_int (wp :: rest) ->
  exists l' after brk,
    loop_body PlanPath p g l
    = Ok (l',
          PubState (state_data l)
          :: Print (NewWaypoints (fst (goal_of wp)) (snd (goal_of wp)))
          :: PubState 0 :: after,
          brk)
    /\ waypoints_change_once l' = false
    /\ (odom_rcvd g = true -> In (PubCurrentWaypoint 0) after)
    /\ ((current_waypoint l' = 0 /\ goal l' = goal_of wp)
        \/ (current_waypoint l' = 1
            /\ within p (distance (goal_of wp) (odom g)) = true
            /\ exists wp1, nth_error rest 0 = Some wp1
                           /\ goal l' = goal_of wp1)).
Proof.
  intros Hpend Hwps Hfit.
  rewrite (loop_body_after_process PlanPath p g l _ _
             (process_new_waypoints_restart g l wp rest Hpend Hwps)).
  set (l1 := restarted wp l).
  assert (Hin : in_range g l1).
  { unfold in_range. rewrite Hwps. cbn. lia. }
  assert (Hfit' : fits_int (current_waypoints g)) by now rewrite Hwps.
  destruct (tracking g l1) eqn:Htrack.
  - pose proof (tracking_odom_rcvd g l1 Htrack) as Hodom.
    destruct (last_index g l1) eqn:Hlast.
    + destruct (within p (distance (goal l1) (odom g)) || shutdown_condition l1)
        eqn:Hreach.
      * rewrite (plan_and_track_arrived PlanPath p g l1 Htrack Hlast Hreach).
        cbn [bind]. do 3 eexists. split; [reflexivity|].
        split; [now destruct (10 <? _)|].
        split; [intros _; apply in_or_app; left;
                apply (in_progress_report g l1)|].
        left. now destruct (10 <? _).
      * rewrite (plan_and_track_waiting g l1 Htrack Hlast Hreach).
        cbn [bind]. do 3 eexists. split; [reflexivity|].
        split; [reflexivity|].
        split; [intros _; apply in_or_app; left;
                apply (in_progress_report g l1)|].
        left. split; reflexivity.
    + destruct (plan_and_track_intermediate PlanPath p g l1 Htrack Hfit' Hin
                  Hlast) as [ros_path Hpt].
      rewrite Hpt. change (current_waypoint l1) with 0.
      change (goal l1) with (goal_of wp). rewrite Hwps.
      destruct (within p (distance (goal_of wp) (odom g))) eqn:Hw.
      * cbn [Z.add Z.to_nat Pos.to_nat Pos.iter_op Nat.add nth_error].
        destruct rest as [|wp1 rest'].
        { exfalso. unfold last_index in Hlast. rewrite Hwps in Hlast.
          vm_compute in Hlast. discriminate. }
        cbn [bind]. do 3 eexists. split; [reflexivity|].
        split; [reflexivity|].
        split; [intros _; apply in_or_app; left;
                apply (in_progress_report g l1)|].
        right. repeat split. exists wp1. split; reflexivity.
      * cbn [bind]. do 3 eexists. split; [reflexivity|].
        split; [reflexivity|].
        split; [intros _; apply in_or_app; left;
                apply (in_progress_report g l1)|].
        left. split; reflexivity.
  - rewrite (plan_and_track_skip g l1 Htrack). cbn [bind].
    do 3 eexists. split; [reflexivity|].
    split; [reflexivity|].
    split.
    + intros Hodom. unfold tracking in Htrack. rewrite Hodom in Htrack.
      discriminate.
    + left. split; reflexivity.
Qed.

End Restart.

(** C1, as the code has it. Only the first waypoint list processed while
    the loop runs restarts tracking. As long as [waypoints_change_once] is
    still set, the iteration that follows the reception of a non-empty list
    (the latest one, when several arrived) publishes state 0, resets the
    index to 0, takes the position of element 0 of the new list as goal and
    tracks from index 0 against the new list: it publishes current waypoint
    0 when a pose is known, and it ends with index 0 and that goal, or one
    step further with index 1 and the position of element 1 as goal when
    element 0 is already within the threshold. Neither the old list nor the
    old index matter. The flag is then cleared for good: a list received
    later replaces the list, but the node neither resets the index nor
    recomputes the goal for it. *)
Theorem first_received_list_restarts_tracking :
  (forall PlanPath (p : Params) (g0 : Globals) (l : Locals)
          (evs1 evs2 : list Event) (wp : PoseStamped) (rest : Path),
      waypoints_change_once l = true ->
      no_waypoints evs2 = true ->
      fits_int (wp :: rest) ->
      let g := spin_some (evs1 ++ EvWaypoints (wp :: rest) :: evs2) g0 in
      exists l' after brk,
        loop_body PlanPath p g l
        = Ok (l',
              PubState (state_data l)
              :: Print (NewWaypoints (fst (goal_of wp)) (snd (goal_of wp)))
              :: PubState 0 :: after,
              brk)
        /\ waypoints_change_once l' = false
        /\ (odom_rcvd g = true -> In (PubCurrentWaypoint 0) after)
        /\ ((current_waypoint l' = 0 /\ goal l' = goal_of wp)
            \/ (current_waypoint l' = 1
                /\ within p (distance (goal_of wp) (odom g)) = true
                /\ exists wp1, nth_error rest 0 = Some wp1
                               /\ goal l' = goal_of wp1)))
  /\ (forall PlanPath (p : Params) (g : Globals) (l l' : Locals)
             (out : list Msg) (brk : bool),
      waypoints_change_once l = false ->
      process_new_waypoints g l = Ok (l, [])
      /\ (loop_body PlanPath p g l = Ok (l', out, brk) ->
          waypoints_change_once l' = false)).
Proof.
  split.
  - intros PlanPath p g0 l evs1 evs2 wp rest Honce Hq Hfit g.
    destruct (spin_some_last_waypoints evs1 evs2 (wp :: rest) g0 Hq)
      as [Hw Hr].
    apply restart_step; [|exact Hw|exact Hfit].
    unfold pending. subst g. now rewrite Hr, Honce.
  - intros PlanPath p g l l' out brk Honce.
    assert (Hp : pending g l = false).
    { unfold pending. rewrite Honce. apply andb_false_r. }
    split; [now apply process_new_waypoints_idle|].
    intros H. iteration_cases H; try congruence;
      try match goal with
        | |- context [if ?b then _ else _] => destruct b
        end; cbn; auto.
Qed.

Lemma first_received_list_restarts_tracking_witness :
  exists l' out brk,
    loop_body Examples.line_planner (Examples.params 1)
      (spin_some [EvWaypoints [Examples.pt 0 5; Examples.pt 9 9]]
         Examples.at_last_waypoint)
      (Examples.tracking_waypoint 2 20 0)
    = Ok (l', out, brk)
    /\ current_waypoint l' = 0
    /\ goal l' = Examples.row 0 5.
Proof.
  destruct (proj1 first_received_list_restarts_tracking
              Examples.line_planner (Examples.params 1)
              Examples.at_last_waypoint (Examples.tracking_waypoint 2 20 0)
              [] [] (Examples.pt 0 5) [Examples.pt 9 9])
    as (l' & after & brk & Hbody & _ & _ & [[Hcw Hgoal]|(_ & Hnear & _)]).
  - reflexivity.
  - reflexivity.
  - unfold fits_int, INT_MAX. simpl. lia.
  - exists l'. eexists. exists brk. split; [exact Hbody|].
    split; [exact Hcw|]. rewrite Hgoal. vm_compute. reflexivity.
  - exfalso. vm_compute in Hnear. discriminate.
Defined.

(** C1 as stated fails: the iteration that follows the reception of a
    second list publishes current waypoint 1, not 0. *)
Lemma second_list_does_not_restart :
  ~ (forall PlanPath (c : Config) (pre : list (list Event))
            (evs : list Event) (post : list (list Event)) (t : Tick) (v : Z),
        no_waypoints evs = false ->
        nth_error (fst (snd (main PlanPath c (pre ++ evs :: post))))
          (S (length pre)) = Some t ->
        In (PubCurrentWaypoint v) (tick_out t) ->
        v = 0).
Proof.
  intros H.
  assert (E : exists t,
             nth_error
               (fst (snd (main Examples.line_planner (Examples.cfg_empty 1)
                            Examples.two_lists))) 2 = Some t
             /\ In (PubCurrentWaypoint 1) (tick_out t)).
  { eexists. split; [vm_compute; reflexivity|]. cbn. auto 6. }
  destruct E as (t & Hnth & Hin).
  specialize (H Examples.line_planner (Examples.cfg_empty 1)
                [[EvOdometry (Examples.at_xy 0 0);
                  EvWaypoints Examples.three_waypoints]]
                [EvWaypoints [Examples.pt 5 5]] [[]] t 1
                eq_refl Hnth Hin).
  discriminate.
Qed.

(** ** Start-up with an inconsistent configuration *)

Section Startup.

Variable PlanPath :
  OccupancyGrid -> OccupancyGrid -> float * float -> float * float ->
  list (float * float).

Variable p : Params.

Lemma startup_step (g : Globals) (l : Locals) :
  state_data l = -1 ->
  waypoints_rcvd g = false ->
  loop_body PlanPath p g l = Ok (next_nl l, [PubState (-1)], false).
Proof.
  intros Hs Hr. unfold loop_body.
  rewrite process_new_waypoints_idle by (unfold pending; now rewrite Hr).
  cbn [bind]. unfold plan_and_track. rewrite Hs. cbn [Z.eqb negb].
  rewrite andb_false_r. reflexivity.
Qed.

(** Without a waypoint list the node stays in start-up: it publishes -1 in
    every iteration and never leaves the loop. *)
Lemma startup_run (ins : list (list Event)) :
  forall (g : Globals) (l : Locals),
    state_data l = -1 ->
    waypoints_rcvd g = false ->
    forallb no_waypoints ins = true ->
    states_of (sent (fst (run PlanPath p ins g l)))
    = repeat (-1) (length ins)
    /\ length (fst (run PlanPath p ins g l)) = length ins
    /\ exists g' l',
        snd (run PlanPath p ins g l) = Running g' l'
        /\ state_data l' = -1
        /\ current_waypoints g' = current_waypoints g.
Proof.
  induction ins as [|evs rest IH]; intros g l Hs Hr Hq; cbn [run].
  - cbn. repeat split. now exists g, l.
  - cbn [forallb] in Hq. apply andb_true_iff in Hq. destruct Hq as [Hevs Hrest].
    rewrite (startup_step g l Hs Hr).
    destruct (spin_some_quiet evs g Hevs) as [Hw Hr'].
    destruct (IH (spin_some evs g) (next_nl l)) as (IHs & IHn & IHr);
      [exact Hs | congruence | exact Hrest |].
    destruct (run PlanPath p rest (spin_some evs g) (next_nl l)) as [ts st].
    cbn [fst snd length repeat] in *.
    rewrite sent_cons, states_of_app, IHs, IHn. cbn [tick_out].
    repeat split.
    destruct IHr as (g' & l' & Hst & Hs' & Hw').
    exists g', l'. repeat split; congruence.
Qed.

End Startup.

Lemma firstn_combine_all {A B : Type} (xs : list A) (ys : list B) :
  firstn (Nat.min (length xs) (length ys)) (combine xs ys) = combine xs ys.
Proof. apply firstn_all2. rewrite length_combine. lia. Qed.

(** C2, as the code has it. When the x and y coordinate lists of the
    configuration differ in length, a warning is printed and the waypoint
    list is made of the pairs up to the shorter length. When that length is
    not 0 the node publishes state 0 at once, with the first pair as goal:
    it drives toward the truncated list. Only when one of the two lists is
    empty does the waypoint list stay empty and the node stay in start-up:
    as long as no waypoint list is received it publishes -1 in every
    iteration and the loop goes on. *)
Theorem mismatched_coordinates_truncate_to_shorter_list :
  forall c : Config,
    let xs := waypoints_x_list c in
    let ys := waypoints_y_list c in
    size xs <> size ys ->
    fits_int xs ->
    fits_int ys ->
    In (Print (WarnCoordinateCount (size xs) (size ys))) (snd (main_init c))
    /\ current_waypoints (init_globals c)
       = map (fun xy => make_pose (fst xy) (snd xy)) (combine xs ys)
    /\ length (current_waypoints (init_globals c))
       = Nat.min (length xs) (length ys)
    /\ (xs <> [] /\ ys <> [] ->
        state_data (init_locals c) = 0
        /\ In (PubState 0) (snd (main_init c))
        /\ current_waypoint (init_locals c) = 0
        /\ goal (init_locals c)
           = (to_float (nth 0 xs fzero), to_float (nth 0 ys fzero)))
    /\ (xs = [] \/ ys = [] ->
        current_waypoints (init_globals c) = []
        /\ state_data (init_locals c) = -1
        /\ forall PlanPath (ins : list (list Event)),
            forallb no_waypoints ins = true ->
            states_of (sent (fst (snd (main PlanPath c ins))))
            = repeat (-1) (length ins)
            /\ exists g' l',
                snd (snd (main PlanPath c ins)) = Running g' l'
                /\ state_data l' = -1
                /\ current_waypoints g' = []).
Proof.
  intros c xs ys Hne Hfx Hfy.
  pose proof (size_fits xs Hfx) as Hsx. pose proof (size_fits ys Hfy) as Hsy.
  assert (Hnum : wrap32 (Z.min (size xs) (size ys))
                 = Z.of_nat (Nat.min (length xs) (length ys))).
  { rewrite Hsx, Hsy. unfold fits_int, INT_MAX in *.
    rewrite wrap32_small by lia. lia. }
  unfold init_globals, init_locals, main. unfold main_init.
  fold xs ys. cbn [fst snd current_waypoints state_data current_waypoint goal].
  rewrite Hnum.
  assert (Hwarn : negb (size xs =? size ys) = true).
  { apply negb_true_iff, Z.eqb_neq. exact Hne. }
  rewrite Hwarn. split; [now left|].
  destruct (Z.ltb_spec 0 (Z.of_nat (Nat.min (length xs) (length ys))))
    as [Hpos|Hzero].
  - rewrite Nat2Z.id, firstn_combine_all, length_map, length_combine.
    split; [reflexivity|]. split; [reflexivity|]. split.
    + intros _. repeat split.
      cbn [app]. right. apply in_or_app. right. now left.
    + intros [Hx|Hy]; [rewrite Hx in Hpos | rewrite Hy in Hpos];
        cbn in Hpos; lia.
  - assert (Hmin : Nat.min (length xs) (length ys) = 0%nat) by lia.
    assert (Hcomb : combine xs ys = []).
    { apply length_zero_iff_nil. now rewrite length_combine. }
    rewrite Hcomb, Hmin. cbn [map length].
    split; [reflexivity|]. split; [reflexivity|]. split.
    + intros [Hx Hy]. destruct xs, ys; try congruence. cbn in Hmin. lia.
    + intros _. split; [reflexivity|]. split; [reflexivity|].
      intros PlanPath ins Hq.
      match goal with
      | |- context [run PlanPath ?p ins ?g ?l] =>
          destruct (startup_run PlanPath p ins g l eq_refl eq_refl Hq)
            as (Hs & _ & g' & l' & Hst & Hl & Hw)
      end.
      split; [exact Hs|]. exists g', l'. repeat split; assumption.
Qed.

Lemma mismatched_coordinates_witness :
  length (current_waypoints (init_globals Examples.cfg_mismatch)) = 2%nat
  /\ state_data (init_locals Examples.cfg_mismatch) = 0
  /\ state_data (init_locals Examples.cfg_no_x) = -1.
Proof.
  destruct (mismatched_coordinates_truncate_to_shorter_list
              Examples.cfg_mismatch)
    as (_ & _ & Hlen & Hactive & _).
  - vm_compute. discriminate.
  - unfold fits_int, INT_MAX. simpl. lia.
  - unfold fits_int, INT_MAX. simpl. lia.
  - destruct (mismatched_coordinates_truncate_to_shorter_list
                Examples.cfg_no_x)
      as (_ & _ & _ & _ & Hstartup).
    + vm_compute. discriminate.
    + unfold fits_int, INT_MAX. simpl. lia.
    + unfold fits_int, INT_MAX. simpl. lia.
    + split; [exact Hlen|]. split.
      * apply Hactive. split; discriminate.
      * apply Hstartup. now left.
Defined.

(** C2 as stated fails: with three x coordinates and two y coordinates the
    node loads two waypoints and goes active. *)
Lemma mismatched_coordinates_go_active :
  ~ (forall c : Config,
        size (waypoints_x_list c) <> size (waypoints_y_list c) ->
        current_waypoints (init_globals c) = []
        /\ state_data (init_locals c) = -1).
Proof.
  intros H.
  destruct (H Examples.cfg_mismatch) as [_ Hstate].
  - vm_compute. discriminate.
  - vm_compute in Hstate. discriminate.
Qed.

(** ** Leaving start-up *)

(** An iteration that leaves start-up has processed a received list, and
    that list was not empty. *)
Lemma startup_left_by_processing_a_list PlanPath (p : Params) (g : Globals)
    (l l' : Locals) (out : list Msg) (brk : bool) :
  state_data l = -1 ->
  loop_body PlanPath p g l = Ok (l', out, brk) ->
  state_data l' <> -1 ->
  pending g l = true /\ current_waypoints g <> [].
Proof.
  intros Hs H Hleft.
  iteration_cases H;
    try (apply tracking_not_startup in Htr; contradiction);
    try (exfalso; apply Hleft; exact Hs);
    (split; [assumption | rewrite Hwps; discriminate]).
Qed.


(** C4 at its failing input. The configuration lists no waypoint and an
    empty waypoint list is received during the first spin: the first
    iteration publishes -1, and the second does not stay in start-up, it
    indexes the empty list at 0 on its way to the assignment of state 0. *)
Theorem empty_received_list_leaves_startup_undefined :
  states_of
    (sent (fst (snd (main Examples.line_planner (Examples.cfg_empty 1)
                       Examples.empty_list_received)))) = [-1]
  /\ snd (snd (main Examples.line_planner (Examples.cfg_empty 1)
                 Examples.empty_list_received))
     = Faulted (OutOfRange 0 0)
  /\ exists g l,
      run Examples.line_planner (init_params (Examples.cfg_empty 1))
        [[EvWaypoints []]]
        (init_globals (Examples.cfg_empty 1))
        (init_locals (Examples.cfg_empty 1))
      = ([mkTick (init_globals (Examples.cfg_empty 1)) l [PubState (-1)]],
         Running g l)
      /\ state_data l = -1
      /\ current_waypoints g = []
      /\ pending g l = true
      /\ loop_body Examples.line_planner (init_params (Examples.cfg_empty 1))
           g l
         = Undefined (OutOfRange 0 0).
Proof.
  split; [vm_compute; reflexivity|].
  split; [vm_compute; reflexivity|].
  do 2 eexists. split; [vm_compute; reflexivity|].
  repeat split.
Qed.

(** * Further properties of the node *)

(** ** The cache of received messages *)

Lemma spin_some_snoc (evs : list Event) (e : Event) (g : Globals) :
  spin_some (evs ++ [e]) g = deliver (spin_some evs g) e.
Proof. unfold spin_some. now rewrite fold_left_app. Qed.

(** X1. [spin_some] leaves in each global the last message of its kind that
    was delivered, or the old value when none was; a callback never touches
    the value of another kind. The two flags are set by the first message of
    their kind and are never cleared. *)
Theorem spin_some_keeps_the_latest_message :
  forall (evs : list Event) (g : Globals),
    odom (spin_some evs g) = or_else (latest_odometry evs) (odom g)
    /\ current_grid (spin_some evs g)
       = or_else (latest_map evs) (current_grid g)
    /\ segmentation_grid (spin_some evs g)
       = or_else (latest_segmentation_map evs) (segmentation_grid g)
    /\ current_waypoints (spin_some evs g)
       = or_else (latest_waypoints evs) (current_waypoints g)
    /\ odom_rcvd (spin_some evs g)
       = odom_rcvd g || is_some (latest_odometry evs)
    /\ waypoints_rcvd (spin_some evs g)
       = waypoints_rcvd g || is_some (latest_waypoints evs).
Proof.
  induction evs as [|e evs IH] using rev_ind; intros g.
  - cbn. now rewrite !orb_false_r.
  - destruct (IH g) as (Ho & Hm & Hs & Hw & Hor & Hwr).
    rewrite spin_some_snoc.
    unfold latest_odometry, latest_map, latest_segmentation_map,
      latest_waypoints in *.
    rewrite !fold_left_app. cbn [fold_left].
    destruct e; cbn [deliver OdometryCallback MapCallback
                       SegmentationMapCallback WaypointCallback
                       odom odom_rcvd current_grid segmentation_grid
                       current_waypoints waypoints_rcvd or_else is_some];
      rewrite ?orb_true_r; auto 7.
Qed.

(** ** What the composed path is made of *)

Lemma stitch_loop_extends (wps : Path) (fuel : nat) :
  forall (cp : Z) (acc ros_path : Path),
    stitch_loop fuel wps cp acc = Ok ros_path ->
    exists tail,
      ros_path = acc ++ tail
      /\ Forall (fun q => exists wp, In wp wps /\ q = stitched wp) tail.
Proof.
  induction fuel as [|fuel IH]; intros cp acc ros_path; cbn [stitch_loop].
  - destruct (to_size_t cp <? to_size_t (size wps - 1)); [discriminate|].
    intros H; injection H as <-. exists []. now rewrite app_nil_r.
  - destruct (to_size_t cp <? to_size_t (size wps - 1)).
    + destruct (at_index wps (wrap32 (cp + 1))) as [wp|f] eqn:Hat;
        cbn [bind]; [|discriminate].
      intros H. destruct (IH _ _ _ H) as (tail & -> & Htail).
      exists (stitched wp :: tail). split.
      * now rewrite <- app_assoc.
      * constructor; [|exact Htail].
        exists wp. split; [|reflexivity].
        apply at_index_Ok in Hat. eapply nth_error_In. exact Hat.
    + intros H; injection H as <-. exists []. now rewrite app_nil_r.
Qed.

(** X2. Whatever the index is, also a stale or negative one, a composed
    path that the node gets to publish starts with the planner's points,
    all of them and in the planner's order, and every pose after them is
    the position of a waypoint of the current list passed through
    [static_cast<float>]: nothing is dropped, reordered or invented. *)
Theorem composed_path_extends_the_planned_path :
  forall (wps : Path) (current_waypoint : Z) (path : list (float * float))
         (ros_path : Path),
    compose wps current_waypoint path = Ok ros_path ->
    exists tail,
      ros_path = to_ros_path path ++ tail
      /\ Forall (fun q => exists wp, In wp wps /\ q = stitched wp) tail
      /\ (length path <= length ros_path)%nat.
Proof.
  intros wps cw path ros_path. unfold compose, stitch.
  destruct (1 <? size (to_ros_path path)).
  - intros H. destruct (stitch_loop_extends _ _ _ _ _ H) as (tail & -> & Ht).
    exists tail. repeat split; auto.
    rewrite length_app. unfold to_ros_path. rewrite length_map. lia.
  - intros H; injection H as <-. exists []. rewrite app_nil_r.
    repeat split; auto. unfold to_ros_path. rewrite length_map. lia.
Qed.

Lemma composed_path_extends_the_planned_path_witness :
  exists tail,
    [Examples.pt 1 1; Examples.pt 10 0; Examples.pt 20 0]
    = to_ros_path [Examples.row 1 1; Examples.row 10 0] ++ tail.
Proof.
  destruct (composed_path_extends_the_planned_path
              Examples.three_waypoints 1
              [Examples.row 1 1; Examples.row 10 0]
              [Examples.pt 1 1; Examples.pt 10 0; Examples.pt 20 0])
    as (tail & Htail & _).
  - vm_compute. reflexivity.
  - exists tail. exact Htail.
Defined.

(** X3. The stitching loop is not guarded against an empty waypoint list:
    [size() - 1] wraps to the largest [size_t], so with a planned path of
    more than one point and any index from 0 on the loop is entered and its
    first read, [poses[cp + 1]], is outside the vector. A planned path of at
    most one point is still passed through. *)
Theorem stitching_an_empty_list_reads_out_of_range :
  forall (current_waypoint : Z) (path : list (float * float)),
    0 <= current_waypoint < INT_MAX ->
    (1 < size path ->
     compose [] current_waypoint path
     = Undefined (OutOfRange (current_waypoint + 1) 0))
    /\ (size path <= 1 ->
        compose [] current_waypoint path = Ok (to_ros_path path)).
Proof.
  unfold INT_MAX. intros cw path Hcw. split.
  - intros Hlong. unfold compose, stitch. rewrite size_to_ros_path.
    destruct (Z.ltb_spec 1 (size path)); [|lia].
    cbn [length stitch_loop].
    assert (Hlt : (to_size_t cw <? to_size_t (size (@nil PoseStamped) - 1))
                  = true).
    { assert (Hmax : to_size_t (size (@nil PoseStamped) - 1) = 2 ^ 64 - 1)
        by (vm_compute; reflexivity).
      rewrite Hmax, to_size_t_small by lia. apply Z.ltb_lt. lia. }
    rewrite Hlt, at_index_nil, wrap32_small, to_size_t_small by lia.
    reflexivity.
  - apply compose_short.
Qed.

Lemma stitching_an_empty_list_witness :
  compose [] 1 [Examples.row 1 1; Examples.row 2 2]
  = Undefined (OutOfRange 2 0)
  /\ compose [] 1 [Examples.row 1 1] = Ok [Examples.pt 1 1].
Proof.
  destruct (stitching_an_empty_list_reads_out_of_range 1
              [Examples.row 1 1; Examples.row 2 2]) as [Hlong _].
  - unfold INT_MAX. lia.
  - destruct (stitching_an_empty_list_reads_out_of_range 1
                [Examples.row 1 1]) as [_ Hshort].
    + unfold INT_MAX. lia.
    + split.
      * apply Hlong. vm_compute. reflexivity.
      * refine (eq_trans (Hshort _) _);
          [vm_compute; discriminate | vm_compute; reflexivity].
Defined.

(** ** Loading the configured waypoints *)

(** X4. With as many x as y coordinates the node loads every pair, in
    order, as one waypoint each. With at least one pair it prints no
    warning, publishes state 0 once, starts at index 0 and takes the first
    pair as goal; with none it prints the "no waypoints" warning, publishes
    nothing and starts in state -1 with an empty list. *)
Theorem matching_coordinates_load_every_waypoint :
  forall c : Config,
    let xs := waypoints_x_list c in
    let ys := waypoints_y_list c in
    length xs = length ys ->
    fits_int xs ->
    current_waypoints (init_globals c)
    = map (fun xy => make_pose (fst xy) (snd xy)) (combine xs ys)
    /\ length (current_waypoints (init_globals c)) = length xs
    /\ odom_rcvd (init_globals c) = false
    /\ waypoints_rcvd (init_globals c) = false
    /\ current_waypoint (init_locals c) = 0
    /\ (xs <> [] ->
        snd (main_init c) = [PubState 0]
        /\ state_data (init_locals c) = 0
        /\ goal (init_locals c)
           = (to_float (nth 0 xs fzero), to_float (nth 0 ys fzero)))
    /\ (xs = [] ->
        snd (main_init c) = [Print WarnNoWaypoints]
        /\ state_data (init_locals c) = -1).
Proof.
  intros c xs ys Hlen Hfit.
  assert (Hfy : fits_int ys) by (unfold fits_int in *; now rewrite <- Hlen).
  pose proof (size_fits xs Hfit) as Hsx. pose proof (size_fits ys Hfy) as Hsy.
  assert (Hsame : (size xs =? size ys) = true).
  { apply Z.eqb_eq. rewrite Hsx, Hsy. now rewrite Hlen. }
  assert (Hnum : wrap32 (Z.min (size xs) (size ys)) = Z.of_nat (length xs)).
  { rewrite Hsx, Hsy, <- Hlen. unfold fits_int, INT_MAX in *.
    rewrite Z.min_id. apply wrap32_small. lia. }
  unfold init_globals, init_locals, main_init. fold xs ys.
  cbn [fst snd current_waypoints state_data current_waypoint goal odom_rcvd
       waypoints_rcvd initial_globals].
  rewrite Hnum, Hsame. cbn [negb app]. rewrite Hsy, Hsx, <- Hlen.
  rewrite orb_diag.
  destruct xs as [|x xs'] eqn:Ex.
  - destruct ys; [|discriminate]. cbn.
    repeat split; auto; congruence.
  - destruct (Z.ltb_spec 0 (Z.of_nat (length (x :: xs'))));
      [|cbn [length] in *; lia].
    destruct (Z.eqb_spec (Z.of_nat (length (x :: xs'))) 0);
      [cbn [length] in *; lia|].
    rewrite Nat2Z.id.
    rewrite firstn_all2 by (rewrite length_combine; lia).
    rewrite length_map, length_combine, <- Hlen, Nat.min_id.
    repeat split; auto; congruence.
Qed.

Lemma matching_coordinates_witness :
  length (current_waypoints (init_globals Examples.cfg_two)) = 2%nat
  /\ snd (main_init Examples.cfg_two) = [PubState 0]
  /\ snd (main_init (Examples.cfg_empty 1)) = [Print WarnNoWaypoints].
Proof.
  destruct (matching_coordinates_load_every_waypoint Examples.cfg_two)
    as (_ & Hlen & _ & _ & _ & Hsome & _).
  - reflexivity.
  - unfold fits_int, INT_MAX. simpl. lia.
  - destruct (matching_coordinates_load_every_waypoint (Examples.cfg_empty 1))
      as (_ & _ & _ & _ & _ & _ & Hnone).
    + reflexivity.
    + unfold fits_int, INT_MAX. simpl. lia.
    + split; [exact Hlen|]. split.
      * apply Hsome. discriminate.
      * apply Hnone. reflexivity.
Defined.

(** ** Before the first odometry message *)

Lemma spin_some_no_odometry (evs : list Event) :
  forall g : Globals,
    no_odometry evs = true ->
    odom_rcvd (spin_some evs g) = odom_rcvd g
    /\ odom (spin_some evs g) = odom g.
Proof.
  unfold spin_some, no_odometry.
  induction evs as [|e evs IH]; intros g H; cbn [fold_left forallb] in *;
    [now split|].
  apply andb_true_iff in H. destruct H as [He Hevs].
  destruct (IH (deliver g e) Hevs) as [Hr Ho]. rewrite Hr, Ho.
  destruct e; try discriminate; split; reflexivity.
Qed.

Lemma reports_app (a b : list Msg) : reports (a ++ b) = reports a ++ reports b.
Proof. unfold reports. apply filter_app. Qed.



Section NoOdometry.

Variable PlanPath :
  OccupancyGrid -> OccupancyGrid -> float * float -> float * float ->
  list (float * float).

Variable p : Params.







End NoOdometry.



(** ** Start-up *)

(** X6. In state -1 with no waypoint list received, odometry and grid
    messages change nothing: every iteration publishes the single message
    "state -1", the loop is never left, and index, goal, the shutdown
    counter and the (empty or not) stored list stay as they are. *)
Theorem startup_waits_for_a_waypoint_list :
  forall PlanPath (p : Params) (ins : list (list Event)) (g : Globals)
         (l : Locals),
    state_data l = -1 ->
    waypoints_rcvd g = false ->
    forallb no_waypoints ins = true ->
    sent (fst (run PlanPath p ins g l))
    = repeat (PubState (-1)) (length ins)
    /\ exists g' l',
        snd (run PlanPath p ins g l) = Running g' l'
        /\ state_data l' = -1
        /\ current_waypoint l' = current_waypoint l
        /\ goal l' = goal l
        /\ shutdown_count l' = shutdown_count l
        /\ waypoints_change_once l' = waypoints_change_once l
        /\ current_waypoints g' = current_waypoints g
        /\ waypoints_rcvd g' = false.
Proof.
  intros PlanPath p ins. induction ins as [|evs rest IH];
    intros g l Hs Hr Hq; cbn [run].
  - cbn. split; [reflexivity|]. exists g, l. repeat split; assumption.
  - cbn [forallb] in Hq. apply andb_true_iff in Hq. destruct Hq as [Hevs Hrest].
    rewrite (startup_step PlanPath p g l Hs Hr).
    destruct (spin_some_quiet evs g Hevs) as [Hw Hr'].
    destruct (IH (spin_some evs g) (next_nl l)) as (IHs & g' & l' & IHr);
      [exact Hs | congruence | exact Hrest |].
    destruct (run PlanPath p rest (spin_some evs g) (next_nl l)) as [ts st].
    cbn [fst snd length repeat] in *. rewrite sent_cons, IHs. cbn [tick_out app].
    split; [reflexivity|].
    exists g', l'. cbn [next_nl current_waypoint goal shutdown_count
                        waypoints_change_once] in IHr.
    destruct IHr as (? & ? & ? & ? & ? & ? & ? & ?).
    repeat split; congruence.
Qed.

Lemma startup_waits_for_a_waypoint_list_witness :
  sent (fst (run Examples.line_planner (Examples.params 1)
               [Examples.busy_spin; []; Examples.busy_spin]
               (init_globals (Examples.cfg_empty 1))
               (init_locals (Examples.cfg_empty 1))))
  = [PubState (-1); PubState (-1); PubState (-1)].
Proof.
  refine (proj1 (startup_waits_for_a_waypoint_list Examples.line_planner
                   (Examples.params 1)
                   [Examples.busy_spin; []; Examples.busy_spin]
                   (init_globals (Examples.cfg_empty 1))
                   (init_locals (Examples.cfg_empty 1)) _ _ _));
    reflexivity.
Defined.

(** ** What an iteration publishes *)

Lemma reports_progress_report (g : Globals) (l : Locals) (ros_path : Path) :
  reports (progress_report g l ros_path)
  = [PubPath ros_path; PubWaypoints (current_waypoints g);
     PubCurrentWaypoint (current_waypoint l);
     PubDist (distance (goal l) (odom g))].
Proof.
  unfold progress_report, reports.
  destruct (Z.rem (nl l) 20 =? 0); reflexivity.
Qed.

Lemma reports_iteration (v : Z) (out1 out' : list Msg) (g : Globals)
    (l : Locals) (ros_path : Path) :
  reports (PubState v :: out1 ++ progress_report g l ros_path ++ out')
  = reports out1
    ++ [PubPath ros_path; PubWaypoints (current_waypoints g);
        PubCurrentWaypoint (current_waypoint l);
        PubDist (distance (goal l) (odom g))]
    ++ reports out'.
Proof.
  change (PubState v :: ?x) with ([PubState v] ++ x).
  now rewrite !reports_app, reports_progress_report.
Qed.

(** X7. An iteration publishes on the four topics other than
    [nature/state] exactly when a pose has been received and the node is not
    in start-up once a pending list has been processed. It then publishes,
    in this order and once each, the composed path, the stored waypoint list
    as it is (also a list that was received but never processed), the index
    and the distance to the goal, both as they are before this iteration
    advances the index. *)
Theorem iteration_reports_path_list_index_distance :
  forall PlanPath (p : Params) (g : Globals) (l l1 l' : Locals)
         (out1 out : list Msg) (brk : bool),
    process_new_waypoints g l = Ok (l1, out1) ->
    loop_body PlanPath p g l = Ok (l', out, brk) ->
    (tracking g l1 = false -> reports out = [])
    /\ (tracking g l1 = true ->
        exists ros_path,
          compose (current_waypoints g) (current_waypoint l1)
            (planned PlanPath g l1) = Ok ros_path
          /\ reports out
             = [PubPath ros_path; PubWaypoints (current_waypoints g);
                PubCurrentWaypoint (current_waypoint l1);
                PubDist (distance (goal l1) (odom g))]).
Proof.
  intros PlanPath p g l l1 l' out1 out brk Hproc H.
  rewrite (loop_body_after_process PlanPath p g l l1 out1 Hproc) in H.
  assert (Hout1 : reports out1 = []).
  { apply process_new_waypoints_inv in Hproc.
    destruct Hproc as [(_ & _ & ->)|(_ & wp & rest & _ & _ & ->)];
      reflexivity. }
  split; intros Htr.
  - rewrite (plan_and_track_skip PlanPath p g l1 Htr) in H. cbn [bind] in H.
    injection H as _ <- _.
    change (PubState (state_data l) :: out1 ++ [])
      with ([PubState (state_data l)] ++ out1 ++ []).
    now rewrite !reports_app, Hout1.
  - destruct (compose (current_waypoints g) (current_waypoint l1)
                (planned PlanPath g l1)) as [ros_path|f] eqn:Hcomp.
    2:{ unfold plan_and_track in H. unfold tracking in Htr.
        unfold planned in Hcomp. rewrite Htr, Hcomp in H. discriminate. }
    exists ros_path. split; [reflexivity|].
    rewrite (plan_and_track_run PlanPath p g l1 ros_path Htr Hcomp) in H.
    destruct (check_progression p g l1 (distance (goal l1) (odom g)))
      as [[[l2 out'] brk']|f] eqn:Hcheck; cbn [bind] in H; [|discriminate].
    injection H as _ <- _.
    assert (Hout' : reports out' = []).
    { apply check_progression_inv in Hcheck.
      destruct Hcheck as [(_ & _ & _ & -> & _)|[(_ & _ & _ & -> & _)
                         |[(_ & _ & _ & -> & _)|(_ & _ & _ & -> & _)]]];
        reflexivity. }
    refine (eq_trans
              (reports_iteration (state_data l) out1 out' g l1 ros_path) _).
    now rewrite Hout1, Hout'.
Qed.

Lemma iteration_reports_witness :
  reports
    [PubState 0; PubPath [Examples.pt 0 0; Examples.pt 20 0];
     PubWaypoints [Examples.pt 5 5]; PubCurrentWaypoint 2;
     PubDist (distance (Examples.row 20 0) (Examples.at_xy 0 0));
     PubState 0]
  = [PubPath [Examples.pt 0 0; Examples.pt 20 0];
     PubWaypoints [Examples.pt 5 5]; PubCurrentWaypoint 2;
     PubDist (distance (Examples.row 20 0) (Examples.at_xy 0 0))].
Proof.
  destruct (proj2 (iteration_reports_path_list_index_distance
                     Examples.line_planner (Examples.params 1)
                     (Examples.shorter_list 0 0)
                     (Examples.after_first_list 2 20 0 false)
                     (Examples.after_first_list 2 20 0 false)
                     (next_nl (Examples.after_first_list 2 20 0 false))
                     []
                     [PubState 0;
                      PubPath [Examples.pt 0 0; Examples.pt 20 0];
                      PubWaypoints [Examples.pt 5 5]; PubCurrentWaypoint 2;
                      PubDist (distance (Examples.row 20 0)
                                 (Examples.at_xy 0 0));
                      PubState 0]
                     false eq_refl ltac:(vm_compute; reflexivity))
              eq_refl) as (ros_path & Hcomp & Hrep).
  rewrite Hrep. vm_compute in Hcomp. injection Hcomp as <-. reflexivity.
Defined.

(** X8. The state a downstream consumer saw last is the state the node is
    in: every iteration first publishes the state it starts with, publishes
    between one and three states in all, and the last of them is the state
    it ends with. *)
Theorem last_published_state_is_the_current_state :
  forall PlanPath (p : Params) (g : Globals) (l l' : Locals)
         (out : list Msg) (brk : bool),
    loop_body PlanPath p g l = Ok (l', out, brk) ->
    exists middle,
      (states_of out = [state_data l] /\ state_data l' = state_data l
       \/ states_of out = state_data l :: middle ++ [state_data l'])
      /\ (length middle <= 1)%nat.
Proof.
  intros PlanPath p g l l' out brk H.
  iteration_cases H;
    rewrite ?states_of_cons, ?states_of_app, ?states_of_progress_report;
    cbn [states_of flat_map app];
    try match goal with
      | |- context [if ?b then _ else _] => destruct b
      end;
    cbn [state_data next_nl requested active_at restarted].
  all: first
    [ exists []; split; [left; split; reflexivity | cbn; lia]
    | exists []; split; [right; reflexivity | cbn; lia]
    | exists [0]; split; [right; reflexivity | cbn; lia] ].
Qed.

Lemma last_published_state_witness :
  exists middle,
    states_of
      [PubState 0; PubPath [Examples.pt 0 0; Examples.pt 20 0];
       PubWaypoints [Examples.pt 5 5]; PubCurrentWaypoint 2;
       PubDist (distance (Examples.row 20 0) (Examples.at_xy 0 0));
       PubState 0]
    = 0 :: middle ++ [0].
Proof.
  destruct (last_published_state_is_the_current_state
              Examples.line_planner (Examples.params 1)
              (Examples.shorter_list 0 0)
              (Examples.after_first_list 2 20 0 false)
              (next_nl (Examples.after_first_list 2 20 0 false))
              [PubState 0;
               PubPath [Examples.pt 0 0; Examples.pt 20 0];
               PubWaypoints [Examples.pt 5 5]; PubCurrentWaypoint 2;
               PubDist (distance (Examples.row 20 0) (Examples.at_xy 0 0));
               PubState 0]
              false ltac:(vm_compute; reflexivity))
    as (middle & [[Hone _]|Hmore] & _).
  - discriminate Hone.
  - exists middle. exact Hmore.
Defined.

(** ** The line printed every twentieth iteration *)

Lemma prints_distance_app (a b : list Msg) :
  prints_distance (a ++ b) = prints_distance a || prints_distance b.
Proof. unfold prints_distance. apply existsb_app. Qed.

Lemma publishes_distance_app (a b : list Msg) :
  publishes_distance (a ++ b) = publishes_distance a || publishes_distance b.
Proof. unfold publishes_distance. apply existsb_app. Qed.

Lemma distance_line_of_report (g : Globals) (l : Locals) (ros_path : Path) :
  prints_distance (progress_report g l ros_path) = (Z.rem (nl l) 20 =? 0)
  /\ publishes_distance (progress_report g l ros_path) = true.
Proof.
  unfold progress_report, prints_distance, publishes_distance.
  destruct (Z.rem (nl l) 20 =? 0); split; reflexivity.
Qed.

Lemma distance_line_shape (v : Z) (out1 out' : list Msg) (g : Globals)
    (l : Locals) (ros_path : Path) :
  prints_distance out1 = false -> publishes_distance out1 = false ->
  prints_distance out' = false -> publishes_distance out' = false ->
  prints_distance (PubState v :: out1 ++ progress_report g l ros_path ++ out')
  = publishes_distance
      (PubState v :: out1 ++ progress_report g l ros_path ++ out')
    && (Z.rem (nl l) 20 =? 0).
Proof.
  intros H1 H2 H3 H4.
  change (PubState v :: ?x) with ([PubState v] ++ x).
  rewrite !prints_distance_app, !publishes_distance_app, H1, H2, H3, H4.
  destruct (distance_line_of_report g l ros_path) as [-> ->].
  cbn. now rewrite orb_false_r.
Qed.

Section DistanceLine.

Variable PlanPath :
  OccupancyGrid -> OccupancyGrid -> float * float -> float * float ->
  list (float * float).

Variable p : Params.

Lemma distance_line_step (g : Globals) (l l' : Locals) (out : list Msg)
    (brk : bool) :
  loop_body PlanPath p g l = Ok (l', out, brk) ->
  prints_distance out = publishes_distance out && (Z.rem (nl l) 20 =? 0)
  /\ (brk = false -> nl l' = wrap32 (nl l + 1)).
Proof.
  intros H.
  iteration_cases H;
    (split;
     [ first [ apply (distance_line_shape _ _ _ g l); reflexivity
             | apply (distance_line_shape _ _ _ g (restarted wp l));
               reflexivity
             | reflexivity ]
     | try (destruct (10 <? _); [discriminate | reflexivity]);
       reflexivity ]).
Qed.

Lemma distance_line_run (ins : list (list Event)) :
  forall (k : nat) (g : Globals) (l : Locals) (t : Tick),
    0 <= nl l ->
    nl l + Z.of_nat k < 2 ^ 31 ->
    nth_error (fst (run PlanPath p ins g l)) k = Some t ->
    prints_distance (tick_out t)
    = publishes_distance (tick_out t)
      && ((nl l + Z.of_nat k) mod 20 =? 0).
Proof.
  induction ins as [|evs rest IH]; intros k g l t Hnl Hk; cbn [run].
  - destruct k; discriminate.
  - destruct (loop_body PlanPath p g l) as [[[l' out] brk]|f] eqn:E;
      [|destruct k; discriminate].
    destruct (distance_line_step g l l' out brk E) as [Hline Hnext].
    rewrite Z.rem_mod_nonneg in Hline by lia.
    destruct k as [|k].
    + replace (nl l + Z.of_nat 0) with (nl l) by lia.
      destruct brk; [|destruct (run PlanPath p rest (spin_some evs g) l')];
        cbn [fst nth_error]; intros Ht; injection Ht as <-; exact Hline.
    + destruct brk; [destruct k; discriminate|].
      specialize (Hnext eq_refl). rewrite wrap32_small in Hnext by lia.
      specialize (IH k (spin_some evs g) l' t).
      destruct (run PlanPath p rest (spin_some evs g) l') as [ts st].
      cbn [fst nth_error] in *. intros Ht.
      rewrite IH; [|lia|lia|exact Ht].
      do 3 f_equal. lia.
Qed.

End DistanceLine.

(** X9. The "Distance to goal" line is written in the iterations numbered
    0, 20, 40, ... (counted from the start of the loop) in which the node
    also publishes the distance, and in no other: every twentieth
    iteration, and never while no pose is known or the node is in
    start-up. *)
Theorem distance_line_every_twentieth_iteration :
  forall PlanPath (c : Config) (ins : list (list Event)) (k : nat) (t : Tick),
    Z.of_nat k < 2 ^ 31 ->
    nth_error (fst (snd (main PlanPath c ins))) k = Some t ->
    prints_distance (tick_out t)
    = publishes_distance (tick_out t) && (Z.of_nat k mod 20 =? 0).
Proof.
  intros PlanPath c ins k t Hk. unfold main.
  destruct (main_init c) as [[[p g] l] out0] eqn:E. cbn [fst snd].
  assert (Hnl : nl l = 0).
  { unfold main_init in E. injection E as _ _ <- _. reflexivity. }
  intros Ht.
  rewrite (distance_line_run PlanPath p ins k g l t); rewrite ?Hnl;
    [reflexivity | lia | lia | exact Ht].
Qed.

Lemma distance_line_witness :
  exists t,
    nth_error
      (fst (snd (main Examples.line_planner (Examples.cfg_two)
                   ([EvOdometry (Examples.at_xy 50 50)]
                      :: Examples.idle 20))))
      20 = Some t
    /\ prints_distance (tick_out t) = true.
Proof.
  eexists. split; [vm_compute; reflexivity|].
  refine (eq_trans
            (distance_line_every_twentieth_iteration Examples.line_planner
               Examples.cfg_two
               ([EvOdometry (Examples.at_xy 50 50)] :: Examples.idle 20)
               20 _ _ _) _).
  - simpl. lia.
  - vm_compute. reflexivity.
  - vm_compute. reflexivity.
Defined.

(** ** The shutdown request, once made *)

(** X10. [shutdown_condition] is a latch and [shutdown_count] a running
    total: no iteration clears the first or lowers the second, and the count
    moves, by one, only in an iteration that ends in the shutdown state.
    Once the latch is set, every iteration that tracks the last waypoint
    requests the shutdown behaviour whatever the distance to the goal is:
    driving away does not take the request back, and after a new waypoint
    list the request is made again on arrival at its last index. *)
Theorem shutdown_request_is_latched :
  forall PlanPath (p : Params) (g : Globals) (l l1 l' : Locals)
         (out1 out : list Msg) (brk : bool),
    process_new_waypoints g l = Ok (l1, out1) ->
    loop_body PlanPath p g l = Ok (l', out, brk) ->
    (shutdown_condition l = true -> shutdown_condition l' = true)
    /\ (shutdown_count l' = shutdown_count l
        \/ (shutdown_count l' = wrap32 (shutdown_count l + 1)
            /\ state_data l' = shutdown_behavior p
            /\ shutdown_condition l' = true))
    /\ (brk = true -> 10 < shutdown_count l')
    /\ (shutdown_condition l = true ->
        tracking g l1 = true ->
        last_index g l1 = true ->
        state_data l' = shutdown_behavior p
        /\ shutdown_count l' = wrap32 (shutdown_count l + 1)
        /\ current_waypoint l' = current_waypoint l1).
Proof.
  intros PlanPath p g l l1 l' out1 out brk Hproc H.
  assert (Hsc : shutdown_condition l1 = shutdown_condition l
                /\ shutdown_count l1 = shutdown_count l).
  { apply process_new_waypoints_inv in Hproc.
    destruct Hproc as [(_ & -> & _)|(_ & wp & rest & _ & -> & _)];
      split; reflexivity. }
  destruct Hsc as [Hsc Hcnt].
  split; [|split; [|split]].
  - clear Hproc. intros Hset.
    iteration_cases H;
      try match goal with
        | |- context [if ?b then _ else _] => destruct b
        end; cbn; auto.
  - clear Hproc.
    iteration_cases H;
      try (destruct (10 <? _); cbn; auto; fail); cbn; auto.
  - clear Hproc.
    iteration_cases H; intros Hb; try discriminate;
      match goal with
      | Hb : (10 <? ?c) = true |- _ =>
          rewrite Hb; apply Z.ltb_lt in Hb; exact Hb
      end.
  - intros Hset Htr Hlast.
    rewrite (loop_body_after_process PlanPath p g l l1 out1 Hproc) in H.
    rewrite (plan_and_track_arrived PlanPath p g l1 Htr Hlast) in H
      by (rewrite Hsc, Hset; apply orb_true_r).
    cbn [bind] in H. injection H as <- _ _.
    rewrite <- Hcnt.
    destruct (10 <? wrap32 (shutdown_count l1 + 1)); cbn; auto.
Qed.

Lemma shutdown_request_is_latched_witness :
  within (Examples.params 3)
    (distance (goal (Examples.after_first_list 2 20 0 true))
       (odom Examples.far_from_last)) = false
  /\ exists l' out brk,
      loop_body Examples.line_planner (Examples.params 3)
        Examples.far_from_last (Examples.after_first_list 2 20 0 true)
      = Ok (l', out, brk)
      /\ state_data l' = 3
      /\ shutdown_count l' = 1.
Proof.
  split; [vm_compute; reflexivity|].
  do 3 eexists. split; [vm_compute; reflexivity|].
  destruct (shutdown_request_is_latched
              Examples.line_planner (Examples.params 3)
              Examples.far_from_last
              (Examples.after_first_list 2 20 0 true)
              (Examples.after_first_list 2 20 0 true)
              _ [] _ _ eq_refl ltac:(vm_compute; reflexivity))
    as (_ & _ & _ & Hreq).
  destruct Hreq as (Hs & Hc & _); [reflexivity..|].
  split; [exact Hs | exact Hc].
Defined.

(** ** Waiting short of the last waypoint *)

(** X11. While the last waypoint is tracked from outside the threshold and
    was never reached, the node waits: with no new pose and no new waypoint
    list every iteration publishes the state once and does not change it,
    index, goal and the shutdown counter stay as they are, and the loop is
    never left. Grid messages make no difference. *)
Theorem waiting_outside_the_threshold_never_exits :
  forall PlanPath (p : Params) (ins : list (list Event)) (g : Globals)
         (l : Locals),
    tracking g l = true ->
    pending g l = false ->
    last_index g l = true ->
    within p (distance (goal l) (odom g)) = false ->
    shutdown_condition l = false ->
    forallb no_waypoints ins = true ->
    forallb no_odometry ins = true ->
    states_of (sent (fst (run PlanPath p ins g l)))
    = repeat (state_data l) (length ins)
    /\ length (fst (run PlanPath p ins g l)) = length ins
    /\ exists g' l',
        snd (run PlanPath p ins g l) = Running g' l'
        /\ state_data l' = state_data l
        /\ current_waypoint l' = current_waypoint l
        /\ goal l' = goal l
        /\ shutdown_count l' = shutdown_count l
        /\ shutdown_condition l' = false.
Proof.
  intros PlanPath p ins. induction ins as [|evs rest IH];
    intros g l Htr Hpend Hlast Hfar Hsc Hw Ho; cbn [run].
  - cbn. repeat split. exists g, l. repeat split; assumption.
  - cbn [forallb] in Hw, Ho.
    apply andb_true_iff in Hw. destruct Hw as [Hwe Hwr].
    apply andb_true_iff in Ho. destruct Ho as [Hoe Hor].
    rewrite (loop_body_after_process PlanPath p g l l []
               (process_new_waypoints_idle g l Hpend)).
    rewrite (plan_and_track_waiting PlanPath p g l Htr Hlast)
      by (rewrite Hfar, Hsc; reflexivity).
    cbn [bind].
    destruct (spin_some_quiet evs g Hwe) as [Hlist Hrcvd].
    destruct (spin_some_no_odometry evs g Hoe) as [Hodr Hod].
    destruct (IH (spin_some evs g) (next_nl l))
      as (IHs & IHn & g' & l' & IHr).
    + unfold tracking in *. now rewrite Hodr.
    + unfold pending in *. now rewrite Hrcvd.
    + unfold last_index in *. now rewrite Hlist.
    + cbn [goal next_nl]. now rewrite Hod.
    + exact Hsc.
    + exact Hwr.
    + exact Hor.
    + destruct (run PlanPath p rest (spin_some evs g) (next_nl l)) as [ts st].
      cbn [fst snd length repeat] in *.
      rewrite sent_cons, states_of_app, IHs, IHn. cbn [tick_out].
      rewrite states_of_cons, !states_of_app, states_of_progress_report.
      cbn [states_of flat_map app]. repeat split.
      exists g', l'. exact IHr.
Qed.

Lemma waiting_outside_the_threshold_witness :
  states_of
    (sent (fst (run Examples.line_planner (Examples.params 2)
                  [[EvMap [1]]; []; [EvSegmentationMap [0]]]
                  Examples.far_from_last
                  (Examples.after_first_list 2 20 0 false))))
  = [0; 0; 0].
Proof.
  refine (proj1 (waiting_outside_the_threshold_never_exits
                   Examples.line_planner (Examples.params 2)
                   [[EvMap [1]]; []; [EvSegmentationMap [0]]]
                   Examples.far_from_last
                   (Examples.after_first_list 2 20 0 false)
                   _ _ _ _ _ _ _));
    vm_compute; reflexivity.
Defined.

(** ** An index left behind by a shorter list *)

Lemma compose_past_the_list (wps : Path) (cw : Z)
    (path : list (float * float)) :
  fits_int wps ->
  Z.of_nat (length wps) - 1 <= cw < 2 ^ 64 ->
  1 <= Z.of_nat (length wps) ->
  compose wps cw path = Ok (to_ros_path path).
Proof.
  intros Hfit Hcw Hne. unfold compose, stitch.
  destruct (1 <? size (to_ros_path path)); [|reflexivity].
  cbn [stitch_loop]. rewrite (size_fits wps Hfit).
  unfold fits_int, INT_MAX in Hfit.
  rewrite !to_size_t_small by lia.
  destruct (Z.ltb_spec cw (Z.of_nat (length wps) - 1)); [lia|reflexivity].
Qed.

(** X12. When a later, shorter list has left the index at or past the end
    of the stored list (N >= 1 elements, index >= N), the node neither sees
    a last waypoint nor stitches anything: as long as the vehicle stays
    outside the threshold of the old goal it publishes the planner's path
    as it is and state 0, with index and goal unchanged, and never requests
    the shutdown behaviour; the iteration in which the vehicle comes within
    the threshold reads [poses[index + 1]] outside the vector. *)
Theorem index_past_the_list_keeps_the_node_active :
  forall PlanPath (p : Params) (g : Globals) (l : Locals),
    tracking g l = true ->
    pending g l = false ->
    fits_int (current_waypoints g) ->
    1 <= Z.of_nat (length (current_waypoints g)) ->
    Z.of_nat (length (current_waypoints g)) <= current_waypoint l < INT_MAX ->
    (within p (distance (goal l) (odom g)) = false ->
     loop_body PlanPath p g l
     = Ok (next_nl (active_at (current_waypoint l) (goal l) l),
           PubState (state_data l)
           :: progress_report g l (to_ros_path (planned PlanPath g l))
              ++ [PubState 0],
           false))
    /\ (within p (distance (goal l) (odom g)) = true ->
        loop_body PlanPath p g l
        = Undefined (OutOfRange (current_waypoint l + 1)
                       (Z.of_nat (length (current_waypoints g))))).
Proof.
  intros PlanPath p g l Htr Hpend Hfit Hne Hcw.
  pose proof Hfit as Hfit'. unfold fits_int in Hfit'. unfold INT_MAX in *.
  assert (Hbody :
    loop_body PlanPath p g l
    = ('(l2, out2, brk) <-
         check_progression p g l (distance (goal l) (odom g)) ;;
       Ok (if brk then l2 else next_nl l2,
           PubState (state_data l)
           :: progress_report g l (to_ros_path (planned PlanPath g l))
              ++ out2,
           brk))).
  { assert (Hpast : Z.of_nat (length (current_waypoints g)) - 1
                    <= current_waypoint l < 2 ^ 64) by lia.
    rewrite (loop_body_after_process PlanPath p g l l []
               (process_new_waypoints_idle g l Hpend)).
    rewrite (plan_and_track_run PlanPath p g l _ Htr
               (compose_past_the_list _ _ (planned PlanPath g l)
                  Hfit Hpast Hne)).
    destruct (check_progression p g l (distance (goal l) (odom g)))
      as [[[l2 out2] brk]|f]; reflexivity. }
  rewrite Hbody. unfold check_progression.
  rewrite (size_fits _ Hfit), !to_size_t_small by lia.
  destruct (Z.eqb_spec (current_waypoint l)
              (Z.of_nat (length (current_waypoints g)) - 1)); [lia|].
  split; intros ->.
  - reflexivity.
  - rewrite wrap32_small by lia. unfold at_index.
    rewrite to_size_t_small by lia.
    assert (Hnone : nth_error (current_waypoints g)
                      (Z.to_nat (current_waypoint l + 1)) = None)
      by (apply nth_error_None; lia).
    rewrite Hnone, (size_fits _ Hfit). reflexivity.
Qed.

Lemma index_past_the_list_witness :
  loop_body Examples.line_planner (Examples.params 1)
    (Examples.shorter_list 20 0) (Examples.after_first_list 2 20 0 false)
  = Undefined (OutOfRange 3 1)
  /\ exists l' out,
      loop_body Examples.line_planner (Examples.params 1)
        (Examples.shorter_list 0 0) (Examples.after_first_list 2 20 0 false)
      = Ok (l', out, false)
      /\ current_waypoint l' = 2.
Proof.
  destruct (index_past_the_list_keeps_the_node_active
              Examples.line_planner (Examples.params 1)
              (Examples.shorter_list 20 0)
              (Examples.after_first_list 2 20 0 false))
    as [_ Hnear].
  - reflexivity.
  - reflexivity.
  - unfold fits_int, INT_MAX. simpl. lia.
  - simpl. lia.
  - unfold INT_MAX. simpl. lia.
  - destruct (index_past_the_list_keeps_the_node_active
                Examples.line_planner (Examples.params 1)
                (Examples.shorter_list 0 0)
                (Examples.after_first_list 2 20 0 false))
      as [Hfar _].
    + reflexivity.
    + reflexivity.
    + unfold fits_int, INT_MAX. simpl. lia.
    + simpl. lia.
    + unfold INT_MAX. simpl. lia.
    + split.
      * apply Hnear. vm_compute. reflexivity.
      * do 2 eexists. split; [apply Hfar; vm_compute; reflexivity|].
        reflexivity.
Defined.

(** ** The goal and the current waypoint *)

Section GoalOnWaypoint.

Variable PlanPath :
  OccupancyGrid -> OccupancyGrid -> float * float -> float * float ->
  list (float * float).

Variable p : Params.

Lemma goal_after_process (g : Globals) (l l1 : Locals) (out1 : list Msg) :
  pending g l = true
  \/ (settled g l /\ (state_data l = -1 \/ goal_on_waypoint g l)) ->
  process_new_waypoints g l = Ok (l1, out1) ->
  settled g l1 /\ (state_data l1 = -1 \/ goal_on_waypoint g l1).
Proof.
  intros Hpre Hproc. apply process_new_waypoints_inv in Hproc.
  destruct Hproc as [(Hp & -> & _)|(_ & wp & rest & Hwps & -> & _)].
  - destruct Hpre as [Hpre|Hpre]; [congruence | exact Hpre].
  - split.
    + right. unfold in_range. rewrite Hwps. cbn. lia.
    + right. exists wp. rewrite Hwps. split; reflexivity.
Qed.

Lemma goal_after_tracking (g : Globals) (l1 l2 : Locals) (out2 : list Msg)
    (brk : bool) :
  fits_int (current_waypoints g) ->
  settled g l1 ->
  state_data l1 = -1 \/ goal_on_waypoint g l1 ->
  plan_and_track PlanPath p g l1 = Ok (l2, out2, brk) ->
  state_data l2 = -1 \/ goal_on_waypoint g l2.
Proof.
  intros Hfit Hset Hgoal H. apply plan_and_track_inv in H.
  destruct H as [(_ & -> & _)|(Htr & ros_path & out' & _ & Hcheck)];
    [exact Hgoal|].
  pose proof (settled_tracking g l1 Hset Htr) as Hin.
  destruct Hgoal as [Hs|Hgoal];
    [now apply tracking_not_startup in Htr|].
  apply check_progression_inv in Hcheck.
  destruct Hcheck as [(_ & _ & -> & _)|[(_ & _ & -> & _)
                     |[(_ & _ & (nxt & Hat & ->) & _)|(_ & _ & -> & _)]]];
    right; try exact Hgoal.
  destruct (advance_in_range g l1 nxt Hfit Hin Hat) as [Hw Hlt].
  apply at_index_Ok in Hat. rewrite Hw in *.
  unfold in_range in Hin. unfold fits_int, INT_MAX in Hfit.
  rewrite to_size_t_small in Hat by lia.
  exists nxt. split; [exact Hat | reflexivity].
Qed.

Lemma goal_step (g : Globals) (l l' : Locals) (out : list Msg) (brk : bool) :
  fits_int (current_waypoints g) ->
  pending g l = true
  \/ (settled g l /\ (state_data l = -1 \/ goal_on_waypoint g l)) ->
  loop_body PlanPath p g l = Ok (l', out, brk) ->
  state_data l' = -1 \/ goal_on_waypoint g l'.
Proof.
  intros Hfit Hpre H. apply loop_body_inv in H.
  destruct H as (l1 & out1 & l2 & out2 & Hproc & Htrack & -> & _).
  destruct (goal_after_process g l l1 out1 Hpre Hproc) as [Hset Hgoal].
  pose proof (goal_after_tracking g l1 l2 out2 brk Hfit Hset Hgoal Htrack)
    as Hgoal2.
  destruct brk; exact Hgoal2.
Qed.

Lemma goal_ok_tick (g : Globals) (l : Locals) (out : list Msg) :
  state_data l = -1 \/ goal_on_waypoint g l -> goal_ok (mkTick g l out).
Proof.
  unfold goal_ok. cbn [tick_globals tick_locals].
  intros [Hs|Hg] Hne; [contradiction | exact Hg].
Qed.

Lemma goal_run_quiet (ins : list (list Event)) :
  forall (g : Globals) (l : Locals),
    fits_int (current_waypoints g) ->
    pending g l = true
    \/ (settled g l /\ (state_data l = -1 \/ goal_on_waypoint g l)) ->
    forallb no_waypoints ins = true ->
    Forall goal_ok (fst (run PlanPath p ins g l)).
Proof.
  induction ins as [|evs rest IH]; intros g l Hfit Hpre Hq; cbn [run].
  - constructor.
  - cbn [forallb] in Hq. apply andb_true_iff in Hq. destruct Hq as [Hevs Hrest].
    destruct (loop_body PlanPath p g l) as [[[l' out] brk]|f] eqn:E;
      [|constructor].
    assert (Hpre' : pending g l = true \/ settled g l) by tauto.
    destruct (index_step PlanPath p g l l' out brk Hfit Hpre' E)
      as (Hset & _).
    pose proof (goal_step g l l' out brk Hfit Hpre E) as Hgoal.
    destruct brk.
    + constructor; [now apply goal_ok_tick | constructor].
    + destruct (spin_some_quiet evs g Hevs) as [Hw Hr].
      assert (IHt : Forall goal_ok
                      (fst (run PlanPath p rest (spin_some evs g) l'))).
      { apply IH; [now rewrite Hw | | exact Hrest].
        right. unfold settled, in_range, goal_on_waypoint in *.
        now rewrite Hw. }
      destruct (run PlanPath p rest (spin_some evs g) l') as [ts st].
      cbn [fst] in *. constructor; [now apply goal_ok_tick | exact IHt].
Qed.

Lemma goal_run (ins : list (list Event)) :
  forall (g : Globals) (l : Locals),
    fits_int (current_waypoints g) ->
    waypoints_rcvd g = false ->
    waypoints_change_once l = true ->
    settled g l ->
    state_data l = -1 \/ goal_on_waypoint g l ->
    (replacements ins <= 1)%nat ->
    lists_fit ins ->
    Forall goal_ok (fst (run PlanPath p ins g l)).
Proof.
  induction ins as [|evs rest IH];
    intros g l Hfit Hrcvd Honce Hset Hgoal Hone Hlists; cbn [run].
  - constructor.
  - destruct (loop_body PlanPath p g l) as [[[l' out] brk]|f] eqn:E;
      [|constructor].
    assert (Hp : pending g l = false) by (unfold pending; now rewrite Hrcvd).
    destruct (index_step PlanPath p g l l' out brk Hfit (or_intror Hset) E)
      as (Hset' & _ & Hkeep & _).
    destruct (Hkeep Hp) as [Honce' _].
    pose proof (goal_step g l l' out brk Hfit
                  (or_intror (conj Hset Hgoal)) E) as Hgoal'.
    destruct (lists_fit_cons _ _ Hlists) as [Hlists' Hfits].
    rewrite replacements_cons in Hone.
    destruct brk.
    + constructor; [now apply goal_ok_tick | constructor].
    + assert (IHt : Forall goal_ok
                      (fst (run PlanPath p rest (spin_some evs g) l'))).
      { destruct (no_waypoints evs) eqn:Hevs.
        - destruct (spin_some_quiet evs g Hevs) as [Hw Hr].
          apply IH;
            [ rewrite Hw; exact Hfit
            | congruence
            | congruence
            | unfold settled, in_range in *; rewrite Hw; exact Hset'
            | unfold goal_on_waypoint in *; rewrite Hw; exact Hgoal'
            | lia
            | exact Hlists' ].
        - destruct (spin_some_waypoints evs g Hevs) as [Hr Hin].
          apply goal_run_quiet;
            [ apply Hfits; exact Hin
            | left; unfold pending; rewrite Hr; cbn; congruence
            | apply replacements_none; lia ]. }
      destruct (run PlanPath p rest (spin_some evs g) l') as [ts st].
      cbn [fst] in *. constructor; [now apply goal_ok_tick | exact IHt].
Qed.

End GoalOnWaypoint.

Lemma main_init_goal (c : Config) p g l out0 :
  main_init c = (p, g, l, out0) ->
  float_stable (nth 0 (waypoints_x_list c) fzero) ->
  float_stable (nth 0 (waypoints_y_list c) fzero) ->
  state_data l = -1 \/ goal_on_waypoint g l.
Proof.
  unfold main_init. intros H Hx Hy. injection H as _ <- <- _.
  cbn [state_data]. unfold goal_on_waypoint.
  cbn [current_waypoints current_waypoint goal].
  set (num := wrap32 (Z.min (size (waypoints_x_list c))
                        (size (waypoints_y_list c)))).
  destruct (Z.ltb_spec 0 num) as [Hpos|Hneg]; [right | now left].
  assert (Hxs : waypoints_x_list c <> []).
  { apply size_nil_iff. intros E. subst num. rewrite E in Hpos.
    pose proof (size_nonneg (waypoints_y_list c)).
    rewrite Z.min_l in Hpos by lia. cbn in Hpos. lia. }
  assert (Hys : waypoints_y_list c <> []).
  { apply size_nil_iff. intros E. subst num. rewrite E in Hpos.
    pose proof (size_nonneg (waypoints_x_list c)).
    rewrite Z.min_r in Hpos by lia. cbn in Hpos. lia. }
  destruct (waypoints_x_list c) as [|x xs]; [congruence|].
  destruct (waypoints_y_list c) as [|y ys]; [congruence|].
  cbn [nth] in *.
  destruct (Z.to_nat num) as [|n] eqn:En; [lia|].
  cbn [combine firstn map Z.to_nat nth_error fst snd].
  exists (make_pose x y). split; [reflexivity|].
  unfold goal_of, make_pose. cbn [position_x position_y].
  unfold float_stable in *. now rewrite Hx, Hy.
Qed.

(** X13. The goal is the position of the current waypoint. In every run in
    which waypoint lists are delivered in at most one spin of the loop, each
    with at most [INT_MAX] poses, every iteration that ends out of start-up
    ends with the goal equal to the position, converted to [float], of the
    waypoint at the current index of the list it ran with. (The first
    configured pair is assumed to survive the conversion to [float] and
    back, as every value does that [static_cast<float>] produced.) *)
Theorem goal_is_the_current_waypoint :
  forall PlanPath (c : Config) (ins : list (list Event)),
    float_stable (nth 0 (waypoints_x_list c) fzero) ->
    float_stable (nth 0 (waypoints_y_list c) fzero) ->
    (replacements ins <= 1)%nat ->
    lists_fit ins ->
    Forall goal_ok (fst (snd (main PlanPath c ins))).
Proof.
  intros PlanPath c ins Hx Hy Hone Hlists. unfold main.
  destruct (main_init c) as [[[p g] l] out0] eqn:E. cbn [fst snd].
  destruct (main_init_settled c p g l out0 E) as (Hfit & Hset & _).
  destruct (main_init_lifecycle c p g l out0 E) as (_ & _ & _ & Honce & Hrcvd).
  pose proof (main_init_goal c p g l out0 E Hx Hy) as Hgoal.
  now apply goal_run.
Qed.

Lemma goal_is_the_current_waypoint_witness :
  Forall goal_ok
    (fst (snd (main Examples.line_planner Examples.cfg_two
                 [[EvOdometry (Examples.at_xy 0 0)]; [];
                  [EvWaypoints Examples.three_waypoints]; []; []]))).
Proof.
  apply (goal_is_the_current_waypoint Examples.line_planner Examples.cfg_two
           [[EvOdometry (Examples.at_xy 0 0)]; [];
            [EvWaypoints Examples.three_waypoints]; []; []]).
  - vm_compute. reflexivity.
  - vm_compute. reflexivity.
  - vm_compute. lia.
  - reflexivity.
Defined.

(** ** When the index moves and when shutdown is requested *)

(** X14. The index moves in two ways only. Processing a pending list sets
    it to 0; after that an iteration either leaves it alone or, when it
    tracks a waypoint that is not the last one and the distance is below
    the threshold, adds exactly one (and then the new index is inside the
    list). It never goes back and never skips. *)
Theorem index_moves_by_one_or_not_at_all :
  forall PlanPath (p : Params) (g : Globals) (l l1 l' : Locals)
         (out1 out : list Msg) (brk : bool),
    process_new_waypoints g l = Ok (l1, out1) ->
    loop_body PlanPath p g l = Ok (l', out, brk) ->
    (pending g l = false /\ current_waypoint l1 = current_waypoint l
     \/ pending g l = true /\ current_waypoint l1 = 0)
    /\ (current_waypoint l' = current_waypoint l1 /\ goal l' = goal l1
        \/ (current_waypoint l' = wrap32 (current_waypoint l1 + 1)
            /\ tracking g l1 = true
            /\ last_index g l1 = false
            /\ within p (distance (goal l1) (odom g)) = true
            /\ exists wp,
                nth_error (current_waypoints g)
                  (Z.to_nat (to_size_t (current_waypoint l'))) = Some wp
                /\ goal l' = goal_of wp)).
Proof.
  intros PlanPath p g l l1 l' out1 out brk Hproc H.
  rewrite (loop_body_after_process PlanPath p g l l1 out1 Hproc) in H.
  split.
  - apply process_new_waypoints_inv in Hproc.
    destruct Hproc as [(Hp & -> & _)|(Hp & wp & rest & _ & -> & _)];
      [left | right]; split; auto.
  - destruct (plan_and_track PlanPath p g l1) as [[[l2 out2] brk2]|f] eqn:E;
      cbn [bind] in H; [|discriminate].
    injection H as <- _ _.
    apply plan_and_track_inv in E.
    destruct E as [(_ & -> & _ & ->)|(Htr & ros_path & out' & _ & Hcheck)];
      [left; split; reflexivity|].
    apply check_progression_inv in Hcheck.
    destruct Hcheck as [(_ & _ & -> & _ & ->)|[(_ & _ & -> & _ & ->)
                       |[(Hlast & Hnear & (nxt & Hat & ->) & _ & ->)
                        |(_ & _ & -> & _ & ->)]]].
    + left. destruct (10 <? _); split; reflexivity.
    + left. split; reflexivity.
    + right. cbn [next_nl active_at current_waypoint goal].
      repeat split; auto.
      exists nxt. split; [now apply at_index_Ok | reflexivity].
    + left. split; reflexivity.
Qed.

Lemma index_moves_by_one_witness :
  exists l' out,
    loop_body Examples.line_planner (Examples.params 1) Examples.at_origin
      (Examples.tracking_waypoint 0 0 0) = Ok (l', out, false)
    /\ current_waypoint l' = 1.
Proof.
  do 2 eexists. split; [vm_compute; reflexivity|].
  destruct (index_moves_by_one_or_not_at_all
              Examples.line_planner (Examples.params 1) Examples.at_origin
              (Examples.tracking_waypoint 0 0 0)
              (Examples.tracking_waypoint 0 0 0) _ [] _ _
              eq_refl ltac:(vm_compute; reflexivity))
    as (_ & [[Hsame _]|(Hnext & _)]).
  - vm_compute in Hsame. discriminate.
  - exact Hnext.
Defined.

(** X15. [shutdown_condition] is set for the first time only by an
    iteration that has a pose, is out of start-up, tracks the last waypoint
    and measures a distance strictly below the threshold; that iteration
    ends in the shutdown state. *)
Theorem first_request_needs_the_last_waypoint_within_threshold :
  forall PlanPath (p : Params) (g : Globals) (l l1 l' : Locals)
         (out1 out : list Msg) (brk : bool),
    process_new_waypoints g l = Ok (l1, out1) ->
    loop_body PlanPath p g l = Ok (l', out, brk) ->
    shutdown_condition l = false ->
    shutdown_condition l' = true ->
    tracking g l1 = true
    /\ last_index g l1 = true
    /\ within p (distance (goal l1) (odom g)) = true
    /\ state_data l' = shutdown_behavior p
    /\ current_waypoint l' = current_waypoint l1.
Proof.
  intros PlanPath p g l l1 l' out1 out brk Hproc H Hclear Hset.
  rewrite (loop_body_after_process PlanPath p g l l1 out1 Hproc) in H.
  assert (Hsc : shutdown_condition l1 = false).
  { apply process_new_waypoints_inv in Hproc.
    destruct Hproc as [(_ & -> & _)|(_ & wp & rest & _ & -> & _)];
      exact Hclear. }
  destruct (plan_and_track PlanPath p g l1) as [[[l2 out2] brk2]|f] eqn:E;
    cbn [bind] in H; [|discriminate].
  injection H as <- _ _.
  assert (Hset2 : shutdown_condition l2 = true)
    by (destruct brk2; exact Hset).
  apply plan_and_track_inv in E.
  destruct E as [(_ & -> & _)|(Htr & ros_path & out' & _ & Hcheck)];
    [congruence|].
  apply check_progression_inv in Hcheck.
  destruct Hcheck as [(Hlast & Hreach & -> & _)|[(_ & _ & -> & _)
                     |[(_ & _ & (nxt & _ & ->) & _)|(_ & _ & -> & _)]]];
    try (cbn in Hset2; congruence).
  rewrite Hsc, orb_false_r in Hreach.
  repeat split; auto; destruct brk2; reflexivity.
Qed.

Lemma first_request_witness :
  within (Examples.params 2)
    (distance (goal (Examples.tracking_waypoint 2 20 0))
       (odom Examples.at_last_waypoint)) = true.
Proof.
  refine (proj1 (proj2 (proj2
    (first_request_needs_the_last_waypoint_within_threshold
       Examples.line_planner (Examples.params 2) Examples.at_last_waypoint
       (Examples.tracking_waypoint 2 20 0)
       (Examples.tracking_waypoint 2 20 0)
       (next_nl (requested (Examples.params 2)
                   (Examples.tracking_waypoint 2 20 0)))
       []
       (PubState 0
        :: progress_report Examples.at_last_waypoint
             (Examples.tracking_waypoint 2 20 0)
             (to_ros_path (planned Examples.line_planner
                             Examples.at_last_waypoint
                             (Examples.tracking_waypoint 2 20 0)))
           ++ [PubState 2])
       false eq_refl _ eq_refl eq_refl)))).
  vm_compute. reflexivity.
Defined.

Section RequestsOnlyAtTheEnd.

Variable PlanPath :
  OccupancyGrid -> OccupancyGrid -> float * float -> float * float ->
  list (float * float).

Variable p : Params.
Hypothesis Hvalid : valid_behavior p.

Lemma requesting_run (ins : list (list Event)) :
  forall (g : Globals) (l : Locals),
    Lifecycle p g l ->
    Forall (requesting_at_last p) (fst (run PlanPath p ins g l)).
Proof.
  induction ins as [|evs rest IH]; intros g l Hinv; cbn [run].
  - constructor.
  - destruct (loop_body PlanPath p g l) as [[[l' out] brk]|f] eqn:E;
      [|constructor].
    destruct (lifecycle_step PlanPath p g l l' out brk Hinv E)
      as (Hinv' & _ & _).
    assert (Htick : requesting_at_last p (mkTick g l' out)).
    { unfold requesting_at_last. cbn [tick_globals tick_locals]. intros Hs.
      destruct (request_step PlanPath p Hvalid g l l' out brk Hinv E)
        as [(_ & (Htr & _ & Hlast & _) & Hsc & _)|(Hne & _)];
        [|contradiction].
      repeat split; auto. now apply tracking_odom_rcvd in Htr. }
    destruct brk.
    + constructor; [exact Htick | constructor].
    + specialize (IH _ l' (lifecycle_spin_some p g l' evs Hinv')).
      destruct (run PlanPath p rest (spin_some evs g) l') as [ts st].
      cbn [fst] in *. constructor; [exact Htick | exact IH].
Qed.

End RequestsOnlyAtTheEnd.

(** X16. The shutdown behaviour is never requested on the way: in every
    run, an iteration that ends in the shutdown state tracked the last
    index of the list it ran with, had a pose, and left
    [shutdown_condition] set. *)
Theorem shutdown_is_requested_only_at_the_last_index :
  forall PlanPath (c : Config) (ins : list (list Event)),
    Forall (requesting_at_last (init_params c))
      (fst (snd (main PlanPath c ins))).
Proof.
  intros PlanPath c ins. unfold main, init_params.
  destruct (main_init c) as [[[p g] l] out0] eqn:E. cbn [fst snd].
  destruct (main_init_params c p g l out0 E) as (_ & _ & Hvalid).
  destruct (main_init_lifecycle c p g l out0 E) as (Hinv & _).
  now apply requesting_run.
Qed.
